(** * The streaming client of the market dashboard

    A shallow embedding of [frontend/src/hooks/useWebSocket.ts] (the
    [useWebSocket] hook) and of the [MarketDataProvider] component that
    wraps it, followed by the properties of the subscription-reconciling
    client stated over that embedding.

    - React state ([useState]) and refs ([useRef]) are fields of one
      record; handlers are computations in a small state/exception/output
      monad.
    - Everything the client does to the outside world (frames passed to
      [WebSocket.send], [close] calls, timers, console output) is
      recorded as a list of [Effect]s, in order.
    - The browser is an environment that delivers [Event]s; [step] runs
      the handler attached to the event and then lets React re-render. *)

From stdpp Require Import base strings list gmap.
From Stdlib Require Import ZArith Lia.

Local Open Scope Z_scope.

(** ** JavaScript primitives *)

Module JS.

(** [String.prototype.toUpperCase] on ASCII text: tickers are ASCII, and
    the bytes outside [a-z] are left as they are. *)
Definition upper_ascii (c : Ascii.ascii) : Ascii.ascii :=
  let n := Ascii.nat_of_ascii c in
  if ((97 <=? n)%nat && (n <=? 122)%nat)%bool then Ascii.ascii_of_nat (n - 32) else c.

Fixpoint toUpperCase (s : string) : string :=
  match s with
  | EmptyString => EmptyString
  | String c r => String (upper_ascii c) (toUpperCase r)
  end.

(** Truthiness of a string value: only the empty string is falsy. *)
Definition truthy (s : string) : bool :=
  match s with
  | EmptyString => false
  | String _ _ => true
  end.

(** [Array.prototype.includes] on an array of strings. *)
Definition includes (l : list string) (x : string) : bool :=
  bool_decide (x ∈ l).

(** Exceptions the modelled code can meet. *)
Inductive Exn := SyntaxError | TypeError | InvalidStateError.

End JS.

(** ** Data model *)

(** [interface MarketData]. The hook never computes with the numeric
    fields, it only stores them; they are carried as integers. *)
Module MarketData.
Record t := mk {
  symbol : string;
  price : Z;
  change : Z;
  change_percent : Z;
  volume : Z;
  high : Z;
  low : Z;
  open : Z;
  timestamp : string
}.
End MarketData.

(** [interface WebSocketMessage]: optional fields are [option]s. *)
Module WebSocketMessage.
Record t := mk {
  type : string;
  symbol : option string;
  data : option MarketData.t;
  symbols : option (list string);
  timestamp : string
}.
End WebSocketMessage.

(** What [JSON.parse(event.data)] gives for an inbound text frame: it
    throws, or returns [null], or returns an object read at the type
    [WebSocketMessage]. *)
Inductive Parsed :=
| ParseFails
| ParsedNull
| ParsedObject (message : WebSocketMessage.t).

(** The objects handed to [sendMessage]; the wire text is their
    [JSON.stringify]. *)
Inductive OutMessage :=
| Subscribe (symbols : list string)
| Unsubscribe (symbols : list string)
| Ping (timestamp : string).

(** [WebSocket.readyState]. *)
Inductive ReadyState := CONNECTING | OPEN | CLOSING | CLOSED.

(** The union type of [connectionStatus]. *)
Inductive ConnectionStatus := connecting | connected | disconnected | error.

#[global] Instance ReadyState_eq_dec : EqDecision ReadyState.
Proof. solve_decision. Defined.

#[global] Instance ConnectionStatus_eq_dec : EqDecision ConnectionStatus.
Proof. solve_decision. Defined.

#[global] Instance OutMessage_eq_dec : EqDecision OutMessage.
Proof. solve_decision. Defined.

(** Observable actions of the client, in the order they are performed. *)
Inductive Effect :=
| NewWebSocket (id : nat)                         (* new WebSocket(wsUrl) *)
| WsSend (id : nat) (m : OutMessage)              (* socket.send(JSON.stringify(m)) *)
| WsClose (id : nat) (code : Z) (reason : string) (* socket.close(code, reason) *)
| SetTimeout (tid : nat) (delay : Z)              (* setTimeout(reconnect, delay) *)
| ClearTimeout (tid : nat)
| SetInterval (period : Z)                        (* the heartbeat interval *)
| ClearInterval
| ConsoleLog (text : string)
| ConsoleWarn (text : string)
| ConsoleError (text : string)
| Uncaught (e : JS.Exn).

(** ** State of one mounted [MarketDataProvider] *)

Record State := mkState {
  (* the browser: every WebSocket object built so far, by creation index,
     and the timeouts that are still pending *)
  sockets : list ReadyState;
  pendingTimeouts : list nat;
  timeoutCount : nat;
  mounted : bool;
  wsUrlValid : bool;
  (* useWebSocket: refs *)
  ws : option nat;
  reconnectTimeoutRef : option nat;
  reconnectAttempts : Z;
  (* useWebSocket: state *)
  isConnected : bool;
  marketData : gmap string MarketData.t;
  connectionStatus : ConnectionStatus;
  lastMessage : option WebSocketMessage.t;
  (* MarketDataProvider: state *)
  watchlist : list string;
  (* React: a state setter changed something since the last render *)
  needsRender : bool
}.

Definition set_sockets v s :=
  mkState v (pendingTimeouts s) (timeoutCount s) (mounted s) (wsUrlValid s) (ws s)
    (reconnectTimeoutRef s) (reconnectAttempts s) (isConnected s) (marketData s)
    (connectionStatus s) (lastMessage s) (watchlist s) (needsRender s).
Definition set_pendingTimeouts v s :=
  mkState (sockets s) v (timeoutCount s) (mounted s) (wsUrlValid s) (ws s)
    (reconnectTimeoutRef s) (reconnectAttempts s) (isConnected s) (marketData s)
    (connectionStatus s) (lastMessage s) (watchlist s) (needsRender s).
Definition set_timeoutCount v s :=
  mkState (sockets s) (pendingTimeouts s) v (mounted s) (wsUrlValid s) (ws s)
    (reconnectTimeoutRef s) (reconnectAttempts s) (isConnected s) (marketData s)
    (connectionStatus s) (lastMessage s) (watchlist s) (needsRender s).
Definition set_mounted v s :=
  mkState (sockets s) (pendingTimeouts s) (timeoutCount s) v (wsUrlValid s) (ws s)
    (reconnectTimeoutRef s) (reconnectAttempts s) (isConnected s) (marketData s)
    (connectionStatus s) (lastMessage s) (watchlist s) (needsRender s).
Definition set_ws v s :=
  mkState (sockets s) (pendingTimeouts s) (timeoutCount s) (mounted s) (wsUrlValid s) v
    (reconnectTimeoutRef s) (reconnectAttempts s) (isConnected s) (marketData s)
    (connectionStatus s) (lastMessage s) (watchlist s) (needsRender s).
Definition set_reconnectTimeoutRef v s :=
  mkState (sockets s) (pendingTimeouts s) (timeoutCount s) (mounted s) (wsUrlValid s) (ws s)
    v (reconnectAttempts s) (isConnected s) (marketData s)
    (connectionStatus s) (lastMessage s) (watchlist s) (needsRender s).
Definition set_reconnectAttempts v s :=
  mkState (sockets s) (pendingTimeouts s) (timeoutCount s) (mounted s) (wsUrlValid s) (ws s)
    (reconnectTimeoutRef s) v (isConnected s) (marketData s)
    (connectionStatus s) (lastMessage s) (watchlist s) (needsRender s).
Definition set_isConnected v s :=
  mkState (sockets s) (pendingTimeouts s) (timeoutCount s) (mounted s) (wsUrlValid s) (ws s)
    (reconnectTimeoutRef s) (reconnectAttempts s) v (marketData s)
    (connectionStatus s) (lastMessage s) (watchlist s) (needsRender s).
Definition set_marketData v s :=
  mkState (sockets s) (pendingTimeouts s) (timeoutCount s) (mounted s) (wsUrlValid s) (ws s)
    (reconnectTimeoutRef s) (reconnectAttempts s) (isConnected s) v
    (connectionStatus s) (lastMessage s) (watchlist s) (needsRender s).
Definition set_connectionStatus v s :=
  mkState (sockets s) (pendingTimeouts s) (timeoutCount s) (mounted s) (wsUrlValid s) (ws s)
    (reconnectTimeoutRef s) (reconnectAttempts s) (isConnected s) (marketData s)
    v (lastMessage s) (watchlist s) (needsRender s).
Definition set_lastMessage v s :=
  mkState (sockets s) (pendingTimeouts s) (timeoutCount s) (mounted s) (wsUrlValid s) (ws s)
    (reconnectTimeoutRef s) (reconnectAttempts s) (isConnected s) (marketData s)
    (connectionStatus s) v (watchlist s) (needsRender s).
Definition set_watchlist v s :=
  mkState (sockets s) (pendingTimeouts s) (timeoutCount s) (mounted s) (wsUrlValid s) (ws s)
    (reconnectTimeoutRef s) (reconnectAttempts s) (isConnected s) (marketData s)
    (connectionStatus s) (lastMessage s) v (needsRender s).
Definition set_needsRender v s :=
  mkState (sockets s) (pendingTimeouts s) (timeoutCount s) (mounted s) (wsUrlValid s) (ws s)
    (reconnectTimeoutRef s) (reconnectAttempts s) (isConnected s) (marketData s)
    (connectionStatus s) (lastMessage s) (watchlist s) v.

(** ** The monad of handlers: state, exceptions, recorded effects *)

Inductive Completion (A : Type) :=
| Normal (a : A)
| Throw (e : JS.Exn).
Arguments Normal {A} a.
Arguments Throw {A} e.

Definition M (A : Type) : Type := State → Completion A * State * list Effect.

Definition ret {A} (a : A) : M A := λ s, (Normal a, s, []).

Definition bind {A B} (m : M A) (f : A → M B) : M B := λ s,
  match m s with
  | (Normal a, s1, o1) =>
      match f a s1 with
      | (r, s2, o2) => (r, s2, o1 ++ o2)
      end
  | (Throw e, s1, o1) => (Throw e, s1, o1)
  end.

Definition throw {A} (e : JS.Exn) : M A := λ s, (Throw e, s, []).

(** [try { m } catch (e) { h e }] *)
Definition try_catch {A} (m : M A) (h : JS.Exn → M A) : M A := λ s,
  match m s with
  | (Normal a, s1, o1) => (Normal a, s1, o1)
  | (Throw e, s1, o1) =>
      match h e s1 with
      | (r, s2, o2) => (r, s2, o1 ++ o2)
      end
  end.

Definition gets {A} (f : State → A) : M A := λ s, (Normal (f s), s, []).
Definition modify (f : State → State) : M unit := λ s, (Normal tt, f s, []).
Definition emit (e : Effect) : M unit := λ s, (Normal tt, s, [e]).

Declare Scope js_scope.
Delimit Scope js_scope with js.
Notation "x ← m ; k" := (bind m (λ x, k))
  (at level 20, m at level 100, k at level 200, only parsing) : js_scope.
Notation "m ;; k" := (bind m (λ _, k))
  (at level 100, k at level 200, only parsing, right associativity) : js_scope.
Local Open Scope js_scope.

(** [if (b) { m }] *)
Definition when (b : bool) (m : M unit) : M unit := if b then m else ret tt.

(** The state and the effects of running a computation. *)
Definition state_of {A} (r : Completion A * State * list Effect) : State := r.1.2.
Definition effects_of {A} (r : Completion A * State * list Effect) : list Effect := r.2.
Definition completion_of {A} (r : Completion A * State * list Effect) : Completion A := r.1.1.

(** ** The browser *)

Definition readyStateOf (id : nat) (s : State) : option ReadyState := sockets s !! id.

Definition setReadyState (id : nat) (r : ReadyState) : M unit :=
  modify (λ s, set_sockets (<[id := r]> (sockets s)) s).

(** [new WebSocket(wsUrl)]: a [SyntaxError] when the URL does not parse,
    otherwise a fresh socket that starts in [CONNECTING]. *)
Definition new_WebSocket : M nat := λ s,
  if wsUrlValid s then
    let id := length (sockets s) in
    (Normal id, set_sockets (sockets s ++ [CONNECTING]) s, [NewWebSocket id])
  else (Throw JS.SyntaxError, s, []).

(** [socket.send(data)]: throws while [CONNECTING], transmits while
    [OPEN], and discards the data silently once closing or closed. *)
Definition ws_send (id : nat) (m : OutMessage) : M unit :=
  st ← gets (readyStateOf id);
  match st with
  | Some CONNECTING => throw JS.InvalidStateError
  | Some OPEN => emit (WsSend id m)
  | _ => ret tt
  end.

(** [socket.close(code, reason)]: starts the closing handshake unless the
    socket is already closing or closed. *)
Definition ws_close (id : nat) (code : Z) (reason : string) : M unit :=
  emit (WsClose id code reason);;
  st ← gets (readyStateOf id);
  match st with
  | Some CONNECTING | Some OPEN => setReadyState id CLOSING
  | _ => ret tt
  end.

(** [setTimeout(callback, delay)]; the only callback the program ever
    passes is the reconnect callback below. *)
Definition setTimeout (delay : Z) : M nat :=
  tid ← gets timeoutCount;
  modify (λ s, set_timeoutCount (S tid) (set_pendingTimeouts (pendingTimeouts s ++ [tid]) s));;
  emit (SetTimeout tid delay);;
  ret tid.

Definition clearTimeout (tid : nat) : M unit :=
  modify (λ s, set_pendingTimeouts (filter (λ t, t ≠ tid) (pendingTimeouts s)) s);;
  emit (ClearTimeout tid).

(** ** React state setters

    A setter schedules a re-render unless the new value is the value the
    state already holds ([Object.is]); an object or array built by the
    caller is always a new value. *)

Definition setIsConnected (b : bool) : M unit :=
  current ← gets isConnected;
  if bool_decide (current = b) then ret tt
  else modify (λ s, set_needsRender true (set_isConnected b s)).

Definition setConnectionStatus (c : ConnectionStatus) : M unit :=
  current ← gets connectionStatus;
  if bool_decide (current = c) then ret tt
  else modify (λ s, set_needsRender true (set_connectionStatus c s)).

Definition setLastMessage (m : option WebSocketMessage.t) : M unit :=
  current ← gets lastMessage;
  match m, current with
  | None, None => ret tt
  | _, _ => modify (λ s, set_needsRender true (set_lastMessage m s))
  end.

Definition setMarketData (f : gmap string MarketData.t → gmap string MarketData.t) : M unit :=
  modify (λ s, set_needsRender true (set_marketData (f (marketData s)) s)).

Definition setWatchlist (f : list string → list string) : M unit :=
  modify (λ s, set_needsRender true (set_watchlist (f (watchlist s)) s)).

(** ** [useWebSocket] *)

Definition maxReconnectAttempts : Z := 5.

(** [ws.current?.readyState === WebSocket.OPEN] *)
Definition currentIsOpen (s : State) : bool :=
  match ws s with
  | Some id => bool_decide (readyStateOf id s = Some OPEN)
  | None => false
  end.

Definition connect : M unit :=
  isOpen ← gets currentIsOpen;
  if isOpen then ret tt
  else
    setConnectionStatus connecting;;
    try_catch
      (id ← new_WebSocket;
       modify (set_ws (Some id)))
      (λ _, emit (ConsoleError "Failed to create WebSocket connection:");;
            setConnectionStatus error).

Definition onopen : M unit :=
  emit (ConsoleLog "WebSocket connected");;
  setIsConnected true;;
  setConnectionStatus connected;;
  modify (set_reconnectAttempts 0).

(** [JSON.parse(event.data)] *)
Definition JSON_parse (event_data : Parsed) : M (option WebSocketMessage.t) :=
  match event_data with
  | ParseFails => throw JS.SyntaxError
  | ParsedNull => ret None
  | ParsedObject message => ret (Some message)
  end.

(** [message.type === 'market_data' && message.symbol && message.data] *)
Definition isMarketData (message : WebSocketMessage.t) : option (string * MarketData.t) :=
  if String.eqb (WebSocketMessage.type message) "market_data" then
    match WebSocketMessage.symbol message, WebSocketMessage.data message with
    | Some symbol, Some data => if JS.truthy symbol then Some (symbol, data) else None
    | _, _ => None
    end
  else None.

Definition onmessage (event_data : Parsed) : M unit :=
  try_catch
    (parsed ← JSON_parse event_data;
     setLastMessage parsed;;
     match parsed return M unit with
     | None => throw JS.TypeError
     | Some message =>
         match isMarketData message with
         | Some (symbol, data) => setMarketData (λ prev, <[symbol := data]> prev)
         | None => ret tt
         end
     end)
    (λ _, emit (ConsoleError "Error parsing WebSocket message:")).

Definition onclose (code : Z) (reason : string) : M unit :=
  emit (ConsoleLog ("WebSocket disconnected: " +:+ reason));;
  setIsConnected false;;
  setConnectionStatus disconnected;;
  attempts ← gets reconnectAttempts;
  when (bool_decide (code ≠ 1000) && bool_decide (attempts < maxReconnectAttempts))
    (modify (λ s, set_reconnectAttempts (reconnectAttempts s + 1) s);;
     attempts ← gets reconnectAttempts;
     tid ← setTimeout (Z.min (1000 * 2 ^ attempts) 30000);
     modify (set_reconnectTimeoutRef (Some tid))).

(** The callback [onclose] passes to [setTimeout]. *)
Definition reconnectCallback : M unit :=
  emit (ConsoleLog "Reconnect attempt");;
  connect.

Definition onerror : M unit :=
  emit (ConsoleError "WebSocket error:");;
  setConnectionStatus error.

Definition disconnect : M unit :=
  timeout ← gets reconnectTimeoutRef;
  match timeout with
  | Some tid => clearTimeout tid
  | None => ret tt
  end;;
  current ← gets ws;
  match current with
  | Some id => ws_close id 1000 "Manual disconnect";; modify (set_ws None)
  | None => ret tt
  end;;
  setIsConnected false;;
  setConnectionStatus disconnected.

Definition sendMessage (message : OutMessage) : M unit :=
  current ← gets ws;
  isOpen ← gets currentIsOpen;
  match current with
  | Some id =>
      if isOpen then ws_send id message
      else emit (ConsoleWarn "WebSocket is not connected")
  | None => emit (ConsoleWarn "WebSocket is not connected")
  end.

Definition subscribe (symbols : list string) : M unit :=
  sendMessage (Subscribe (JS.toUpperCase <$> symbols)).

Definition unsubscribe (symbols : list string) : M unit :=
  sendMessage (Unsubscribe (JS.toUpperCase <$> symbols)).

(** The heartbeat: the callback of [setInterval(..., 30000)]; [now] is
    [new Date().toISOString()]. *)
Definition heartbeatInterval : Z := 30000.

Definition heartbeat (now : string) : M unit :=
  isOpen ← gets currentIsOpen;
  when isOpen (sendMessage (Ping now)).

(** ** [MarketDataProvider] *)

Definition defaultWatchlist : list string :=
  ["AAPL"; "GOOGL"; "MSFT"; "TSLA"; "AMZN"; "META"; "NVDA"; "SPY"; "QQQ"; "IWM"].

(** The effect "Subscribe to watchlist symbols when WebSocket connects".
    Its dependency list holds the object [useWebSocket()] returns, which
    is a new object at every render, so it runs after every render. *)
Definition resubscribeEffect : M unit :=
  isConn ← gets isConnected;
  wl ← gets watchlist;
  when (isConn && bool_decide (0 < length wl)%nat) (subscribe wl).

(** The three watchlist operations read [watchlist] and [isConnected]
    from the render they were created in. Every handler of a mounted
    provider is followed by its render, so for a mounted client between
    two events these are the values of the state; only the argument of
    the functional update ([prev]) is read at the time of the update. *)
Definition addToWatchlist (symbols : list string) : M unit :=
  wl ← gets watchlist;
  isConn ← gets isConnected;
  let upperSymbols := JS.toUpperCase <$> symbols in
  let newSymbols := filter (λ symbol, negb (JS.includes wl symbol)) upperSymbols in
  when (bool_decide (0 < length newSymbols)%nat)
    (setWatchlist (λ prev, prev ++ newSymbols);;
     when isConn (subscribe newSymbols)).

Definition removeFromWatchlist (symbols : list string) : M unit :=
  isConn ← gets isConnected;
  let upperSymbols := JS.toUpperCase <$> symbols in
  setWatchlist (λ prev, filter (λ symbol, negb (JS.includes upperSymbols symbol)) prev);;
  when isConn (unsubscribe upperSymbols).

Definition clearWatchlist : M unit :=
  wl ← gets watchlist;
  isConn ← gets isConnected;
  when isConn (unsubscribe wl);;
  setWatchlist (λ _, []).

(** ** Events and the event loop *)

(** What the environment can make the mounted client do: the browser
    fires a socket event, a timeout or the heartbeat interval; a consumer
    of the context calls one of its functions; the parent re-renders; the
    provider is unmounted. *)
Inductive Event :=
| EvOpen (id : nat)
| EvMessage (id : nat) (data : Parsed)
| EvError (id : nat)
| EvClose (id : nat) (code : Z) (reason : string)
| EvTimeout (tid : nat)
| EvHeartbeat (now : string)
| EvSubscribe (symbols : list string)
| EvUnsubscribe (symbols : list string)
| EvAddToWatchlist (symbols : list string)
| EvRemoveFromWatchlist (symbols : list string)
| EvClearWatchlist
| EvRender
| EvUnmount.

(** The handler run for an event. The browser only fires [open] on a
    connecting socket, [message] on an open one, [error] and [close] on a
    socket that is not closed yet, a timeout that is still pending, and
    the interval while it is installed; it updates [readyState] before
    the handler runs. An event that cannot happen is ignored. *)
Definition dispatch (e : Event) : M unit :=
  match e with
  | EvOpen id =>
      st ← gets (readyStateOf id);
      when (bool_decide (st = Some CONNECTING)) (setReadyState id OPEN;; onopen)
  | EvMessage id data =>
      st ← gets (readyStateOf id);
      when (bool_decide (st = Some OPEN)) (onmessage data)
  | EvError id =>
      st ← gets (readyStateOf id);
      when (bool_decide (is_Some st ∧ st ≠ Some CLOSED)) onerror
  | EvClose id code reason =>
      st ← gets (readyStateOf id);
      when (bool_decide (is_Some st ∧ st ≠ Some CLOSED))
        (setReadyState id CLOSED;; onclose code reason)
  | EvTimeout tid =>
      pending ← gets pendingTimeouts;
      when (bool_decide (tid ∈ pending))
        (modify (λ s, set_pendingTimeouts (filter (λ t, t ≠ tid) (pendingTimeouts s)) s);;
         reconnectCallback)
  | EvHeartbeat now =>
      m ← gets mounted;
      when m (heartbeat now)
  | EvSubscribe symbols => subscribe symbols
  | EvUnsubscribe symbols => unsubscribe symbols
  | EvAddToWatchlist symbols => addToWatchlist symbols
  | EvRemoveFromWatchlist symbols => removeFromWatchlist symbols
  | EvClearWatchlist => clearWatchlist
  | EvRender => modify (set_needsRender true)
  | EvUnmount =>
      m ← gets mounted;
      when m (disconnect;; emit ClearInterval;; modify (set_mounted false))
  end.

(** After the handler, React re-renders the provider if a setter changed
    some state, and runs the effects of that render. The state updates
    of one handler are batched into one render (React 18). *)
Definition flush : M unit :=
  dirty ← gets needsRender;
  m ← gets mounted;
  modify (set_needsRender false);;
  when (dirty && m) resubscribeEffect.

(** An exception that escapes a handler is reported by the browser. *)
Definition toplevel (m : M unit) (s : State) : State * list Effect :=
  match m s with
  | (Normal _, s', out) => (s', out)
  | (Throw e, s', out) => (s', out ++ [Uncaught e])
  end.

Definition step (e : Event) (s : State) : State * list Effect :=
  toplevel (dispatch e;; flush) s.

Fixpoint steps (es : list Event) (s : State) : State * list Effect :=
  match es with
  | [] => (s, [])
  | e :: es' =>
      let '(s1, o1) := step e s in
      let '(s2, o2) := steps es' s1 in
      (s2, o1 ++ o2)
  end.

(** The provider at its first render, once the initial watchlist is
    known: [saved] is what [JSON.parse] made of the [market-watchlist]
    item of [localStorage], if there is one (see [loadWatchlist] below
    for the parse itself, which can throw). Writing the watchlist back
    to [localStorage] has no part in what follows and is left out. *)
Definition init (saved : option (list string)) (urlValid : bool) : State :=
  {| sockets := [];
     pendingTimeouts := [];
     timeoutCount := 1;
     mounted := false;
     wsUrlValid := urlValid;
     ws := None;
     reconnectTimeoutRef := None;
     reconnectAttempts := 0;
     isConnected := false;
     marketData := ∅;
     connectionStatus := disconnected;
     lastMessage := None;
     watchlist := default defaultWatchlist saved;
     needsRender := false |}.

(** The first render: the effects run in the order the hooks are called
    ([connect()], the heartbeat interval, then the provider's effect). *)
Definition mount (s : State) : State * list Effect :=
  toplevel
    (modify (set_mounted true);;
     connect;;
     emit (SetInterval heartbeatInterval);;
     resubscribeEffect;;
     flush) s.




(** A mounted client after the given events. *)
Definition session (saved : option (list string)) (es : list Event) : State * list Effect :=
  let '(s0, o0) := mount (init saved true) in
  let '(s1, o1) := steps es s0 in
  (s1, o0 ++ o1).

(** The frames given to [WebSocket.send], and the sockets opened, among
    some effects. *)
Definition framesSent (out : list Effect) : list OutMessage :=
  omap (λ e, match e with WsSend _ m => Some m | _ => None end) out.

Definition socketsOpened (out : list Effect) : list nat :=
  omap (λ e, match e with NewWebSocket id => Some id | _ => None end) out.

Definition timeoutsSet (out : list Effect) : list Z :=
  omap (λ e, match e with SetTimeout _ d => Some d | _ => None end) out.

Definition closeCalls (out : list Effect) : list (nat * Z) :=
  omap (λ e, match e with WsClose id code _ => Some (id, code) | _ => None end) out.


(** ** Vocabulary of the specification and sample data *)

(** The delay the specification's testable property gives for the k-th
    reconnect attempt, in milliseconds: [min(1s * 2^(k-1), 30s)]. *)
Definition spec_nextDelay (k : Z) : Z := Z.min (1000 * 2 ^ (k - 1)) 30000.

(** Order of two [toISOString] timestamps: they have one fixed-width
    format, so the order of the instants is the order of the texts. *)
Definition isoBefore (t1 t2 : string) : bool :=
  match String.compare t1 t2 with
  | Lt => true
  | _ => false
  end.

Definition quote (symbol : string) (price : Z) (timestamp : string) : MarketData.t :=
  MarketData.mk symbol price 0 0 1000 price price price timestamp.

(** The frame [{"type":"market_data","symbol":...,"data":...}]. *)
Definition marketDataFrame (symbol : string) (data : MarketData.t) : Parsed :=
  ParsedObject
    (WebSocketMessage.mk "market_data" (Some symbol) (Some data) None
       (MarketData.timestamp data)).

(** A frame of a type the client does not know. *)
Definition statusFrame : Parsed :=
  ParsedObject (WebSocketMessage.mk "status" None None None "2024-01-01T10:00:00.000Z").

(** A client with the default watchlist whose first socket has opened. *)
Definition connectedClient : State := (session None [EvOpen 0%nat]).1.

(** Five connection attempts in a row that each end in an abnormal
    close (code 1006), every reconnect timeout firing in between. After
    them socket 5 is connecting. *)
Definition fiveFailures : list Event :=
  [EvClose 0 1006 ""; EvTimeout 1;
   EvClose 1 1006 ""; EvTimeout 2;
   EvClose 2 1006 ""; EvTimeout 3;
   EvClose 3 1006 ""; EvTimeout 4;
   EvClose 4 1006 ""; EvTimeout 5].

(** An event in which no socket closes with a code other than 1000. *)
Definition cleanClose (e : Event) : Prop :=
  match e with
  | EvClose _ code _ => code = 1000
  | _ => True
  end.

(** What the connection logic reads and writes: the sockets, the pending
    timeouts, the two refs, whether the provider is mounted, and
    [isConnected]. *)
Definition connectionView (s : State)
    : list ReadyState * list nat * option nat * option nat * bool * bool :=
  (sockets s, pendingTimeouts s, reconnectTimeoutRef s, ws s, mounted s, isConnected s).

(** The invariant of a mounted client: the only timeout that can be
    pending is the one [reconnectTimeoutRef] holds; while it is pending
    every socket is closed; a socket that is not closed is the current
    one; and [isConnected] is only set while the current socket is open. *)
Definition oneConnection (s : State) : Prop :=
  mounted s = true
  ∧ (∀ t, t ∈ pendingTimeouts s → reconnectTimeoutRef s = Some t)
  ∧ (pendingTimeouts s ≠ [] → ∀ i st, sockets s !! i = Some st → st = CLOSED)
  ∧ (∀ i st, sockets s !! i = Some st → st ≠ CLOSED → ws s = Some i)
  ∧ (isConnected s = true → ∃ i, ws s = Some i ∧ sockets s !! i = Some OPEN).

(** The symbols [addToWatchlist] takes as new: the upper-cased symbols
    that the watchlist does not include. *)
Definition newSymbolsFor (wl symbols : list string) : list string :=
  filter (λ symbol, negb (JS.includes wl symbol)) (JS.toUpperCase <$> symbols).

(** A frame whose symbols are all in upper case already. *)
Definition normalisedFrame (m : OutMessage) : Prop :=
  match m with
  | Subscribe symbols | Unsubscribe symbols => JS.toUpperCase <$> symbols = symbols
  | Ping _ => True
  end.


(** What [sendMessage] does with a message in state [s], and what the
    render that follows a handler sends. *)
Definition sendEffects (m : OutMessage) (s : State) : list Effect :=
  match ws s with
  | Some id => if currentIsOpen s then [WsSend id m]
               else [ConsoleWarn "WebSocket is not connected"]
  | None => [ConsoleWarn "WebSocket is not connected"]
  end.

Definition renderEffects (s : State) : list Effect :=
  if needsRender s && mounted s && isConnected s && bool_decide (0 < length (watchlist s))%nat
  then sendEffects (Subscribe (JS.toUpperCase <$> watchlist s)) s
  else [].

(** ** The portfolio page ([pages/Portfolio.tsx]) *)

Module PortfolioPage.
Section Page.

(** The numeric fields are JavaScript numbers. The page only stores them
    and compares them with zero, so the type of numbers, the number [0]
    and the test [x > 0] are parameters. *)
Context {number : Type} (zero : number) (positive : number → bool).

(** [interface Position] and [interface Portfolio]. *)
Record Position := mkPosition {
  symbol : string;
  shares : number;
  avg_cost : number
}.

Record Portfolio := mkPortfolio {
  name : string;
  positions : list Position;
  cash : number
}.

(** The state of the page that the position handlers read and write. *)
Record Page := mkPage {
  portfolio : Portfolio;
  newPosition : Position;
  addPositionOpen : bool
}.

(** The [onChange] handlers of the three fields of the dialog. *)
Definition changeSymbol (value : string) (p : Page) : Page :=
  mkPage (portfolio p)
    (mkPosition (JS.toUpperCase value) (shares (newPosition p)) (avg_cost (newPosition p)))
    (addPositionOpen p).

Definition changeShares (value : number) (p : Page) : Page :=
  mkPage (portfolio p)
    (mkPosition (symbol (newPosition p)) value (avg_cost (newPosition p)))
    (addPositionOpen p).

Definition changeAvgCost (value : number) (p : Page) : Page :=
  mkPage (portfolio p)
    (mkPosition (symbol (newPosition p)) (shares (newPosition p)) value)
    (addPositionOpen p).

Definition addPosition (p : Page) : Page :=
  let np := newPosition p in
  if JS.truthy (symbol np) && positive (shares np) && positive (avg_cost np) then
    mkPage
      (mkPortfolio (name (portfolio p))
         (positions (portfolio p)
          ++ [mkPosition (JS.toUpperCase (symbol np)) (shares np) (avg_cost np)])
         (cash (portfolio p)))
      (mkPosition "" zero zero)
      false
  else p.

(** [prev.positions.filter((_, i) => i !== index)]; the page calls it
    with the index of a table row. *)
Definition removePosition (index : nat) (p : Page) : Page :=
  mkPage
    (mkPortfolio (name (portfolio p))
       ((filter (λ ip, ip.1 ≠ index) (imap pair (positions (portfolio p)))).*2)
       (cash (portfolio p)))
    (newPosition p)
    (addPositionOpen p).

Definition COLORS : list string :=
  ["#0088FE"; "#00C49F"; "#FFBB28"; "#FF8042"; "#8884D8"; "#82CA9D"].

(** [analysis?.positions.map((pos, index) => ...) || []]: [positions] is
    [analysis?.positions], of which only the symbol and the weight are
    read; the colour is [COLORS[index % COLORS.length]], which is
    [undefined] when the index is out of the array. *)
Definition pieChartData {A : Type} (pos_symbol : A → string) (pos_weight : A → number)
    (positions : option (list A)) : list (string * number * option string) :=
  match positions with
  | Some l => imap (λ index pos,
                (pos_symbol pos, pos_weight pos, COLORS !! (index mod length COLORS)%nat)) l
  | None => []
  end.

End Page.
End PortfolioPage.

(** * Properties *)

(** ** Unfolding handlers *)

Ltac unfold_m :=
  cbv [bind ret throw try_catch gets modify emit when
       state_of effects_of completion_of toplevel].


Ltac unfold_set :=
  cbv [set_sockets set_pendingTimeouts set_timeoutCount set_mounted set_ws
       set_reconnectTimeoutRef set_reconnectAttempts set_isConnected set_marketData
       set_connectionStatus set_lastMessage set_watchlist set_needsRender].

(** Reading a field of an updated state. *)
Ltac proj :=
  unfold set_sockets, set_pendingTimeouts, set_timeoutCount, set_mounted, set_ws,
    set_reconnectTimeoutRef, set_reconnectAttempts, set_isConnected, set_marketData,
    set_connectionStatus, set_lastMessage, set_watchlist, set_needsRender;
  cbn [sockets pendingTimeouts timeoutCount mounted wsUrlValid ws reconnectTimeoutRef
       reconnectAttempts isConnected marketData connectionStatus lastMessage
       watchlist needsRender fst snd].

Ltac unfold_hook :=
  cbv [onclose onopen onmessage onerror connect disconnect sendMessage subscribe
       unsubscribe heartbeat reconnectCallback resubscribeEffect addToWatchlist
       removeFromWatchlist clearWatchlist JSON_parse
       setTimeout clearTimeout ws_send ws_close new_WebSocket setReadyState
       setIsConnected setConnectionStatus setLastMessage setMarketData setWatchlist
       maxReconnectAttempts currentIsOpen readyStateOf
       set_sockets set_pendingTimeouts set_timeoutCount set_mounted set_ws
       set_reconnectTimeoutRef set_reconnectAttempts set_isConnected set_marketData
       set_connectionStatus set_lastMessage set_watchlist set_needsRender].

Ltac split_step :=
  match goal with
  | H : ?l !! ?i = _ |- context [?l !! ?i] => rewrite H
  | H : ?b = true |- context [?b] => rewrite H
  | H : ?b = false |- context [?b] => rewrite H
  | |- context [bool_decide ?P] => destruct (bool_decide_reflect P)
  | |- context [if ?b then _ else _] => is_var b; destruct b
  | |- context [andb ?b _] => is_var b; destruct b
  | |- context [andb _ ?b] => is_var b; destruct b
  | |- context [match ?x with _ => _ end] => is_var x; destruct x
  | |- context [match ?l !! ?i with _ => _ end] => destruct (l !! i) as [[]|] eqn:?
  | |- context [match isMarketData ?m with _ => _ end] =>
      destruct (isMarketData m) as [[??]|] eqn:?
  end.

Ltac crunch :=
  unfold currentIsOpen, readyStateOf in *;
  cbn in *;
  repeat (first [ progress simplify_eq | split_step ]; cbn in *);
  try done.

(** ** Inbound frames and the cache *)

(** C2, as the code has it: the cache is last-writer-wins by arrival
    order. Every market_data frame with a non-empty symbol replaces the
    record cached for that symbol, whatever the two timestamps are, and
    schedules a re-render. *)
Theorem market_data_last_writer_wins (s : State) (m : WebSocketMessage.t)
    (S : string) (d : MarketData.t) :
  WebSocketMessage.type m = "market_data" →
  WebSocketMessage.symbol m = Some S →
  S ≠ "" →
  WebSocketMessage.data m = Some d →
  marketData (state_of (onmessage (ParsedObject m) s)) = <[S := d]> (marketData s)
  ∧ needsRender (state_of (onmessage (ParsedObject m) s)) = true.
Proof.
  intros Ht Hs Hne Hd.
  destruct S as [|c S']; [done|].
  unfold_hook. unfold isMarketData. unfold_m. destruct s. cbn.
  rewrite Ht, Hs, Hd. by crunch.
Qed.

Lemma market_data_last_writer_wins_witness :
  marketData (state_of (onmessage (marketDataFrame "AAPL" (quote "AAPL" 150 "2024-01-01T10:00:02.000Z")) connectedClient))
  = <["AAPL" := quote "AAPL" 150 "2024-01-01T10:00:02.000Z"]> (marketData connectedClient)
  ∧ needsRender (state_of (onmessage (marketDataFrame "AAPL" (quote "AAPL" 150 "2024-01-01T10:00:02.000Z")) connectedClient)) = true.
Proof.
  apply (market_data_last_writer_wins connectedClient _ "AAPL"
           (quote "AAPL" 150 "2024-01-01T10:00:02.000Z")); done.
Defined.

(** C2 as stated fails: the record of 10:00:02 is cached, then the older
    record of 10:00:01 arrives; the cache ends up holding the older
    record, and that application schedules a re-render like any other. *)
Lemma stale_record_replaces_newer :
  let r1 := quote "AAPL" 149 "2024-01-01T10:00:01.000Z" in
  let r2 := quote "AAPL" 150 "2024-01-01T10:00:02.000Z" in
  let s2 := (step (EvMessage 0 (marketDataFrame "AAPL" r2)) connectedClient).1 in
  let s1 := state_of (onmessage (marketDataFrame "AAPL" r1) s2) in
  isoBefore (MarketData.timestamp r1) (MarketData.timestamp r2) = true
  ∧ marketData s2 !! "AAPL" = Some r2
  ∧ needsRender s2 = false
  ∧ marketData s1 !! "AAPL" = Some r1
  ∧ marketData s1 ≠ marketData s2
  ∧ needsRender s1 = true.
Proof.
  cbv zeta. repeat split; try (vm_compute; reflexivity).
  intros H. apply (f_equal (λ m : gmap string MarketData.t, m !! "AAPL")) in H.
  vm_compute in H. discriminate H.
Qed.


(** ** The shape of a step *)

#[local] Arguments sendMessage : simpl never.

Lemma sendMessage_eq (m : OutMessage) (s : State) :
  sendMessage m s = (Normal tt, s, sendEffects m s).
Proof.
  unfold sendEffects. unfold_hook. unfold_m. destruct s. crunch.
Qed.

Lemma flush_eq (s : State) :
  flush s = (Normal tt, set_needsRender false s, renderEffects s).
Proof.
  unfold flush, resubscribeEffect, subscribe, renderEffects.
  unfold_m. unfold_set. destruct s. cbn.
  repeat (split_step; cbn); by rewrite ?sendMessage_eq.
Qed.



Lemma dispatch_normal (e : Event) (s : State) :
  completion_of (dispatch e s) = Normal tt.
Proof.
  destruct e; unfold dispatch; unfold_hook; unfold_m; destruct s.
  all: crunch.
Qed.

Lemma step_eq (e : Event) (s : State) :
  step e s =
  (set_needsRender false (state_of (dispatch e s)),
   effects_of (dispatch e s) ++ renderEffects (state_of (dispatch e s))).
Proof.
  unfold step, toplevel, bind.
  pose proof (dispatch_normal e s) as Hn.
  destruct (dispatch e s) as [[[[]|x] s1] o1]; [|done].
  by rewrite flush_eq.
Qed.

(** ** Inbound frames, continued *)

Lemma isMarketData_Some (m : WebSocketMessage.t) (S : string) (d : MarketData.t) :
  isMarketData m = Some (S, d) ↔
  WebSocketMessage.type m = "market_data" ∧ WebSocketMessage.symbol m = Some S
  ∧ S ≠ "" ∧ WebSocketMessage.data m = Some d.
Proof.
  unfold isMarketData.
  destruct (String.eqb_spec (WebSocketMessage.type m) "market_data") as [->|Hne].
  - destruct (WebSocketMessage.symbol m) as [[|c S']|], (WebSocketMessage.data m);
      cbn; split; intros H; try discriminate H; try (destruct H as (_ & ? & ? & ?));
      simplify_eq; done.
  - split; [discriminate|]. by intros [? _].
Qed.

Lemma isMarketData_None (m : WebSocketMessage.t) :
  WebSocketMessage.type m ≠ "market_data" → isMarketData m = None.
Proof.
  intros Hne. destruct (isMarketData m) as [[S d]|] eqn:E; [|done].
  apply isMarketData_Some in E. by destruct E as [? _].
Qed.

(** C9: a frame that names symbol [S] leaves the record cached for every
    other symbol as it was, and leaves the watchlist as it was. *)
Theorem market_data_frame_touches_only_its_symbol (s : State) (id : nat)
    (m : WebSocketMessage.t) (S T : string) :
  WebSocketMessage.type m = "market_data" →
  WebSocketMessage.symbol m = Some S →
  T ≠ S →
  marketData (step (EvMessage id (ParsedObject m)) s).1 !! T = marketData s !! T
  ∧ watchlist (step (EvMessage id (ParsedObject m)) s).1 = watchlist s.
Proof.
  intros Ht Hs Hne. rewrite step_eq.
  unfold dispatch. unfold_hook. unfold_m.
  destruct s. crunch.
  match goal with H : isMarketData _ = Some _ |- _ => apply isMarketData_Some in H end.
  split; [|done]. rewrite lookup_insert_ne; [done|]. intuition congruence.
Qed.

Lemma market_data_frame_touches_only_its_symbol_witness :
  let s := (step (EvMessage 0 (marketDataFrame "MSFT" (quote "MSFT" 410 "2024-01-01T10:00:00.000Z")))
              connectedClient).1 in
  let f := WebSocketMessage.mk "market_data" (Some "AAPL")
             (Some (quote "AAPL" 150 "2024-01-01T10:00:02.000Z")) None "" in
  marketData (step (EvMessage 0 (ParsedObject f)) s).1 !! "MSFT" = marketData s !! "MSFT"
  ∧ watchlist (step (EvMessage 0 (ParsedObject f)) s).1 = watchlist s.
Proof.
  cbv zeta.
  apply (market_data_frame_touches_only_its_symbol _ 0%nat _ "AAPL" "MSFT"); done.
Defined.

(** C8 as stated fails on its "reported" part: a frame of an unknown
    type runs through the handler without any console output. *)
Lemma unknown_type_is_not_reported :
  effects_of (onmessage statusFrame connectedClient) = []
  ∧ lastMessage (state_of (onmessage statusFrame connectedClient))
    = Some (WebSocketMessage.mk "status" None None None "2024-01-01T10:00:00.000Z").
Proof. split; vm_compute; reflexivity. Qed.

Lemma isMarketData_None_fields (m : WebSocketMessage.t) :
  WebSocketMessage.type m ≠ "market_data"
  ∨ WebSocketMessage.symbol m = None
  ∨ WebSocketMessage.symbol m = Some ""
  ∨ WebSocketMessage.data m = None →
  isMarketData m = None.
Proof.
  intros H. destruct (isMarketData m) as [[S d]|] eqn:E; [|done].
  apply isMarketData_Some in E as (Ht & Hs & Hne & Hd).
  destruct H as [H|[H|[H|H]]]; congruence.
Qed.

(** C8, as the code has it. No frame, of whatever kind, makes the handler
    throw, closes a socket or changes the sockets, the current socket or
    [isConnected]. A frame that does not parse is logged with
    [console.error] and leaves [lastMessage] alone; a frame that parses
    to [null] is logged too and clears [lastMessage]; a frame that
    parses to an object is never logged and is kept as [lastMessage],
    whatever its type. The cache is left as it was by every frame that
    is not an applicable market_data frame: one that does not parse, or
    is [null], or has another type, or has no symbol or an empty one,
    or has no data. That is the whole of the check: a market_data frame
    with a non-empty symbol and a data value is cached under that
    symbol without a look at the payload. *)
Theorem bad_frame_keeps_cache_and_connection (s : State) (data : Parsed) :
  let r := onmessage data s in
  completion_of r = Normal tt
  ∧ sockets (state_of r) = sockets s
  ∧ ws (state_of r) = ws s
  ∧ isConnected (state_of r) = isConnected s
  ∧ closeCalls (effects_of r) = []
  ∧ effects_of r =
      match data with
      | ParsedObject _ => []
      | _ => [ConsoleError "Error parsing WebSocket message:"]
      end
  ∧ lastMessage (state_of r) =
      match data with
      | ParsedObject m => Some m
      | ParsedNull => None
      | ParseFails => lastMessage s
      end
  ∧ (match data with
     | ParsedObject m =>
         WebSocketMessage.type m ≠ "market_data"
         ∨ WebSocketMessage.symbol m = None
         ∨ WebSocketMessage.symbol m = Some ""
         ∨ WebSocketMessage.data m = None
     | _ => True
     end →
     marketData (state_of r) = marketData s)
  ∧ (∀ (m : WebSocketMessage.t) (sym : string) (d : MarketData.t),
       data = ParsedObject m →
       WebSocketMessage.type m = "market_data" →
       WebSocketMessage.symbol m = Some sym →
       sym ≠ "" →
       WebSocketMessage.data m = Some d →
       marketData (state_of r) = <[sym := d]> (marketData s)).
Proof.
  intros r. subst r. destruct data as [| |m].
  - unfold_hook; unfold_m; destruct s; split_and!; try done.
  - unfold_hook; unfold_m; destruct s; cbn.
    match goal with |- context [match ?l with Some _ => _ | None => _ end] => destruct l end.
    all: split_and!; done.
  - destruct (isMarketData m) as [[sym d]|] eqn:E.
    + pose proof (proj1 (isMarketData_Some _ _ _) E) as (Ht & Hs & Hne & Hd).
      split_and!.
      1-7: unfold_hook; unfold_m; rewrite E; by destruct s.
      * intros H. apply isMarketData_None_fields in H. congruence.
      * intros m' sym' d' [= <-] _ Hs' _ Hd'.
        assert (sym' = sym) as -> by congruence.
        assert (d' = d) as -> by congruence.
        unfold_hook; unfold_m; rewrite E; by destruct s.
    + split_and!.
      1-8: unfold_hook; unfold_m; rewrite E; by destruct s.
      intros m' sym' d' [= <-] Ht Hs Hne Hd.
      assert (isMarketData m = Some (sym', d')) as Habs; [|congruence].
      by apply isMarketData_Some.
Qed.

Lemma bad_frame_keeps_cache_and_connection_witness :
  let data := ParsedObject (WebSocketMessage.mk "market_data" (Some "AAPL") None None
                              "2024-01-01T10:00:00.000Z") in
  completion_of (onmessage data connectedClient) = Normal tt
  ∧ marketData (state_of (onmessage data connectedClient)) = marketData connectedClient
  ∧ effects_of (onmessage data connectedClient) = []
  ∧ lastMessage (state_of (onmessage data connectedClient))
    = Some (WebSocketMessage.mk "market_data" (Some "AAPL") None None
              "2024-01-01T10:00:00.000Z").
Proof.
  destruct (bad_frame_keeps_cache_and_connection connectedClient
              (ParsedObject (WebSocketMessage.mk "market_data" (Some "AAPL") None None
                               "2024-01-01T10:00:00.000Z")))
    as (Hc & _ & _ & _ & _ & He & Hl & Hm & _).
  split_and!; [exact Hc | | exact He | exact Hl].
  apply Hm. right. right. right. reflexivity.
Defined.

(** The other side of the boundary at an input: nothing in the payload is
    looked at. Here the record names another symbol, has a negative
    price and an empty timestamp, and it becomes the record of AAPL. *)
Lemma payload_is_cached_unvalidated :
  let d := MarketData.mk "MSFT" (-1) 0 0 0 0 0 0 "" in
  marketData (state_of (onmessage (marketDataFrame "AAPL" d) connectedClient)) !! "AAPL"
  = Some d.
Proof. vm_compute; reflexivity. Qed.

(** ** Sending while the socket is not open *)

(** C10: [subscribe] and [unsubscribe] called while the current socket
    is not open (or there is none) return normally, leave the whole state
    as it was and only log a warning. As the state is the same, nothing
    is kept for later: whatever happens next, the client sends exactly
    the frames it would have sent without the call. *)
Theorem send_while_not_open_is_dropped (s : State) (symbols : list string) :
  currentIsOpen s = false →
  subscribe symbols s = (Normal tt, s, [ConsoleWarn "WebSocket is not connected"])
  ∧ unsubscribe symbols s = (Normal tt, s, [ConsoleWarn "WebSocket is not connected"])
  ∧ ∀ es : list Event,
      framesSent (steps es (state_of (subscribe symbols s))).2 = framesSent (steps es s).2
      ∧ framesSent (steps es (state_of (unsubscribe symbols s))).2 = framesSent (steps es s).2.
Proof.
  intros Hclosed.
  assert (∀ m, sendMessage m s = (Normal tt, s, [ConsoleWarn "WebSocket is not connected"])) as Hs.
  { intros m. rewrite sendMessage_eq. unfold sendEffects. rewrite Hclosed.
    by destruct (ws s). }
  unfold subscribe, unsubscribe. rewrite !Hs. done.
Qed.

Lemma send_while_not_open_is_dropped_witness :
  let s := (mount (init None true)).1 in
  subscribe ["tsla"] s = (Normal tt, s, [ConsoleWarn "WebSocket is not connected"])
  ∧ unsubscribe ["tsla"] s = (Normal tt, s, [ConsoleWarn "WebSocket is not connected"])
  ∧ ∀ es : list Event,
      framesSent (steps es (state_of (subscribe ["tsla"] s))).2 = framesSent (steps es s).2
      ∧ framesSent (steps es (state_of (unsubscribe ["tsla"] s))).2 = framesSent (steps es s).2.
Proof.
  apply (send_while_not_open_is_dropped (mount (init None true)).1 ["tsla"]).
  reflexivity.
Defined.

(** ** Reconnecting *)

(** [onclose] after an abnormal close with attempts left: the state it
    leaves and what it does. *)
Lemma onclose_reconnects (code : Z) (reason : string) (s : State) :
  code ≠ 1000 →
  reconnectAttempts s < 5 →
  let r := onclose code reason s in
  effects_of r =
    [ConsoleLog ("WebSocket disconnected: " +:+ reason);
     SetTimeout (timeoutCount s) (Z.min (1000 * 2 ^ (reconnectAttempts s + 1)) 30000)]
  ∧ pendingTimeouts (state_of r) = pendingTimeouts s ++ [timeoutCount s]
  ∧ reconnectTimeoutRef (state_of r) = Some (timeoutCount s)
  ∧ reconnectAttempts (state_of r) = reconnectAttempts s + 1
  ∧ sockets (state_of r) = sockets s
  ∧ ws (state_of r) = ws s
  ∧ wsUrlValid (state_of r) = wsUrlValid s
  ∧ mounted (state_of r) = mounted s
  ∧ isConnected (state_of r) = false.
Proof.
  intros Hc Ha. unfold_hook. unfold_m. destruct s. crunch; lia.
Qed.

(** C3 as stated fails at k = 1: the first reconnect of a freshly mounted
    client is scheduled 2000 ms after the close, where the stated formula
    gives 1000 ms. *)
Lemma first_reconnect_delay_is_two_seconds :
  let s := (mount (init None true)).1 in
  reconnectAttempts s = 0
  ∧ timeoutsSet (step (EvClose 0 1006 "") s).2 = [2000]
  ∧ spec_nextDelay 1 = 1000.
Proof. repeat split; vm_compute; reflexivity. Qed.

(** C3, as the code has it: the delay before the k-th reconnect attempt
    is [min(1000 * 2^k, 30000)] milliseconds, that is 2 s, 4 s, 8 s, 16 s
    and then the cap of 30 s at k = 5, the last attempt the code makes. *)
Theorem reconnect_delay_doubles_from_two_seconds (s : State) (code : Z)
    (reason : string) (k : Z) :
  code ≠ 1000 →
  1 ≤ k ≤ 5 →
  reconnectAttempts s = k - 1 →
  timeoutsSet (effects_of (onclose code reason s)) = [Z.min (1000 * 2 ^ k) 30000]
  ∧ reconnectAttempts (state_of (onclose code reason s)) = k
  ∧ Z.min (1000 * 2 ^ k) 30000 =
      nth (Z.to_nat (k - 1)) [2000; 4000; 8000; 16000; 30000] 0.
Proof.
  intros Hc Hk Ha.
  destruct (onclose_reconnects code reason s Hc) as (He & _ & _ & Hn & _); [lia|].
  rewrite He, Hn. replace (reconnectAttempts s + 1) with k by lia.
  split; [done|]. split; [done|].
  assert (k = 1 ∨ k = 2 ∨ k = 3 ∨ k = 4 ∨ k = 5) as Hcases by lia.
  destruct Hcases as [->|[->|[->|[->| ->]]]]; reflexivity.
Qed.

Lemma reconnect_delay_doubles_from_two_seconds_witness :
  let s := (mount (init None true)).1 in
  timeoutsSet (effects_of (onclose 1006 "" s)) = [Z.min (1000 * 2 ^ 1) 30000]
  ∧ reconnectAttempts (state_of (onclose 1006 "" s)) = 1
  ∧ Z.min (1000 * 2 ^ 1) 30000 = nth (Z.to_nat (1 - 1)) [2000; 4000; 8000; 16000; 30000] 0.
Proof.
  apply (reconnect_delay_doubles_from_two_seconds (mount (init None true)).1 1006 "" 1);
    [done | lia | reflexivity].
Defined.

(** The cap: from the fifth attempt on the formula stays at 30 s. *)
Lemma reconnect_delay_cap (k : Z) : 5 ≤ k → Z.min (1000 * 2 ^ k) 30000 = 30000.
Proof.
  intros Hk. apply Z.min_r.
  assert (2 ^ 5 ≤ 2 ^ k) by (apply Z.pow_le_mono_r; lia). lia.
Qed.

Lemma dispatch_close_eq (id : nat) (code : Z) (reason : string) (s : State) (st : ReadyState) :
  readyStateOf id s = Some st → st ≠ CLOSED →
  dispatch (EvClose id code reason) s =
  onclose code reason (set_sockets (<[id := CLOSED]> (sockets s)) s).
Proof.
  intros Hst Hne. unfold dispatch, setReadyState. unfold_m.
  rewrite Hst. rewrite bool_decide_true by (split; [by eexists|congruence]).
  by destruct (onclose code reason _) as [[??]?].
Qed.

Lemma timeout_reconnects (tid : nat) (s : State) :
  tid ∈ pendingTimeouts s →
  currentIsOpen s = false →
  wsUrlValid s = true →
  let r := dispatch (EvTimeout tid) s in
  effects_of r = [ConsoleLog "Reconnect attempt"; NewWebSocket (length (sockets s))]
  ∧ sockets (state_of r) = sockets s ++ [CONNECTING]
  ∧ ws (state_of r) = Some (length (sockets s))
  ∧ pendingTimeouts (state_of r) = filter (λ t, t ≠ tid) (pendingTimeouts s)
  ∧ reconnectAttempts (state_of r) = reconnectAttempts s.
Proof.
  intros Hin Hclosed Hurl. unfold dispatch. unfold_hook. unfold_m.
  destruct s. cbn in *. subst. rewrite bool_decide_true by done. crunch.
Qed.

Lemma renderEffects_quiet (s : State) :
  timeoutsSet (renderEffects s) = [] ∧ socketsOpened (renderEffects s) = []
  ∧ closeCalls (renderEffects s) = [].
Proof.
  unfold renderEffects, sendEffects.
  destruct (_ && _), (ws s), (currentIsOpen s); done.
Qed.

Lemma timeoutsSet_app (o1 o2 : list Effect) :
  timeoutsSet (o1 ++ o2) = timeoutsSet o1 ++ timeoutsSet o2.
Proof. apply omap_app. Qed.

Lemma socketsOpened_app (o1 o2 : list Effect) :
  socketsOpened (o1 ++ o2) = socketsOpened o1 ++ socketsOpened o2.
Proof. apply omap_app. Qed.

Lemma closeCalls_app (o1 o2 : list Effect) :
  closeCalls (o1 ++ o2) = closeCalls o1 ++ closeCalls o2.
Proof. apply omap_app. Qed.

Lemma framesSent_app (o1 o2 : list Effect) :
  framesSent (o1 ++ o2) = framesSent o1 ++ framesSent o2.
Proof. apply omap_app. Qed.

(** C4 as stated fails: the attempts are bounded. After five failed
    attempts in a row a further abnormal close, on a client that is still
    mounted, schedules nothing, and no timeout is left pending. *)
Lemma sixth_failure_is_not_retried :
  let s := (session None fiveFailures).1 in
  mounted s = true
  ∧ readyStateOf 5 s = Some CONNECTING
  ∧ reconnectAttempts s = 5
  ∧ timeoutsSet (step (EvClose 5 1006 "") s).2 = []
  ∧ pendingTimeouts (step (EvClose 5 1006 "") s).1 = [].
Proof. repeat split; vm_compute; reflexivity. Qed.

(** Below the limit an abnormal close of the current socket is retried. *)
Lemma abnormal_close_below_limit (s : State) (id : nat) (st : ReadyState)
    (code : Z) (reason : string) :
  ws s = Some id →
  readyStateOf id s = Some st →
  st ≠ CLOSED →
  wsUrlValid s = true →
  code ≠ 1000 →
  reconnectAttempts s < 5 →
  let r := step (EvClose id code reason) s in
  timeoutsSet r.2 = [Z.min (1000 * 2 ^ (reconnectAttempts s + 1)) 30000]
  ∧ pendingTimeouts r.1 = pendingTimeouts s ++ [timeoutCount s]
  ∧ reconnectAttempts r.1 = reconnectAttempts s + 1
  ∧ socketsOpened (step (EvTimeout (timeoutCount s)) r.1).2 = [length (sockets s)]
  ∧ ws (step (EvTimeout (timeoutCount s)) r.1).1 = Some (length (sockets s))
  ∧ readyStateOf (length (sockets s)) (step (EvTimeout (timeoutCount s)) r.1).1
    = Some CONNECTING.
Proof.
  intros Hws Hst Hne Hurl Hcode Hatt r. subst r.
  rewrite (step_eq (EvClose _ _ _)), (dispatch_close_eq _ _ _ _ st) by done.
  set (s0 := set_sockets (<[id:=CLOSED]> (sockets s)) s).
  destruct (onclose_reconnects code reason s0 Hcode) as (He & Hp & Hr & Ha & Hso & Hw & Hu & Hm & Hc);
    [by destruct s|].
  cbn [fst snd].
  assert (id < length (sockets s))%nat as Hlt by (by eapply lookup_lt_Some).
  set (s1 := set_needsRender false (state_of (onclose code reason s0))).
  destruct (timeout_reconnects (timeoutCount s) s1) as (He' & Hso' & Hw' & _).
  { subst s1. proj. rewrite Hp. set_solver. }
  { subst s1. unfold currentIsOpen, readyStateOf. proj. rewrite Hw, Hso. subst s0. proj.
    rewrite Hws. rewrite list_lookup_insert_eq by done. done. }
  { subst s1. proj. by rewrite Hu. }
  rewrite (step_eq (EvTimeout _)). cbn [fst snd].
  rewrite timeoutsSet_app, socketsOpened_app.
  destruct (renderEffects_quiet (state_of (onclose code reason s0))) as (-> & _ & _).
  destruct (renderEffects_quiet (state_of (dispatch (EvTimeout (timeoutCount s)) s1))) as (_ & -> & _).
  rewrite He, He'. unfold readyStateOf. proj. rewrite Hw', Hso'.
  subst s1. proj. rewrite Hp, Ha, Hso. subst s0. proj. rewrite length_insert.
  repeat split; try done.
  rewrite lookup_app_r by (by rewrite length_insert).
  rewrite length_insert. by rewrite Nat.sub_diag.
Qed.

(** At the limit [onclose] only records the disconnection. *)
Lemma onclose_gives_up (code : Z) (reason : string) (s : State) :
  5 ≤ reconnectAttempts s →
  let r := onclose code reason s in
  timeoutsSet (effects_of r) = []
  ∧ socketsOpened (effects_of r) = []
  ∧ pendingTimeouts (state_of r) = pendingTimeouts s
  ∧ reconnectTimeoutRef (state_of r) = reconnectTimeoutRef s
  ∧ reconnectAttempts (state_of r) = reconnectAttempts s
  ∧ sockets (state_of r) = sockets s.
Proof.
  intros Ha. unfold_hook. unfold_m. destruct s. crunch; lia.
Qed.

(** At the limit an abnormal close is not retried. *)
Lemma abnormal_close_at_limit (s : State) (id : nat) (st : ReadyState)
    (code : Z) (reason : string) :
  readyStateOf id s = Some st →
  st ≠ CLOSED →
  5 ≤ reconnectAttempts s →
  let r := step (EvClose id code reason) s in
  timeoutsSet r.2 = []
  ∧ socketsOpened r.2 = []
  ∧ pendingTimeouts r.1 = pendingTimeouts s
  ∧ reconnectTimeoutRef r.1 = reconnectTimeoutRef s
  ∧ reconnectAttempts r.1 = reconnectAttempts s
  ∧ sockets r.1 = <[id:=CLOSED]> (sockets s).
Proof.
  intros Hst Hne Hatt r. subst r.
  assert (id < length (sockets s))%nat as Hlt by (by eapply lookup_lt_Some).
  rewrite step_eq, (dispatch_close_eq _ _ _ _ st) by done.
  set (s0 := set_sockets (<[id:=CLOSED]> (sockets s)) s).
  destruct (onclose_gives_up code reason s0) as (He & Ho & Hp & Hr & Ha & Hso);
    [by destruct s|].
  cbn [fst snd]. rewrite timeoutsSet_app, socketsOpened_app.
  destruct (renderEffects_quiet (state_of (onclose code reason s0))) as (-> & -> & _).
  rewrite He, Ho. proj. rewrite Hp, Hr, Ha, Hso.
  subst s0. by destruct s.
Qed.

(** A client with no pending timeout and no socket that could still fire
    an event stays that way, whatever happens. *)
Lemma giving_up_is_final_step (e : Event) (s : State) :
  pendingTimeouts s = [] →
  (∀ i st, sockets s !! i = Some st → st = CLOSED) →
  (pendingTimeouts (step e s).1 = [] ∧ sockets (step e s).1 = sockets s)
  ∧ socketsOpened (step e s).2 = []
  ∧ timeoutsSet (step e s).2 = [].
Proof.
  intros Hp Hall. rewrite step_eq. cbn [fst snd]. proj.
  rewrite socketsOpened_app, timeoutsSet_app.
  destruct (renderEffects_quiet (state_of (dispatch e s))) as (-> & -> & _).
  rewrite !app_nil_r.
  destruct e; unfold dispatch; unfold_hook; unfold_m; destruct s.
  all: crunch.
  all: try match goal with H : _ ∈ [] |- _ => by apply not_elem_of_nil in H end.
  all: try match goal with
           | H : ?l !! ?i = Some ?st |- _ =>
               by specialize (Hall _ _ H)
           | H : is_Some (?l !! ?i) ∧ _ |- _ =>
               destruct H as [[st Hst] Hne]; pose proof (Hall _ _ Hst); congruence
           end.
Qed.

Lemma giving_up_is_final_steps (es : list Event) (s : State) :
  pendingTimeouts s = [] →
  (∀ i st, sockets s !! i = Some st → st = CLOSED) →
  socketsOpened (steps es s).2 = [] ∧ timeoutsSet (steps es s).2 = [].
Proof.
  revert s. induction es as [|e es IH]; intros s Hp Hall; [done|].
  cbn [steps].
  destruct (giving_up_is_final_step e s Hp Hall) as ((Hp1 & Hso1) & Ho1 & Ht1).
  destruct (step e s) as [s1 o1]. cbn [fst snd] in *.
  destruct (IH s1 Hp1) as (Ho2 & Ht2); [by rewrite Hso1|].
  destruct (steps es s1) as [s2 o2]. cbn [fst snd] in *.
  by rewrite socketsOpened_app, timeoutsSet_app, Ho1, Ho2, Ht1, Ht2.
Qed.

(** C4, as the code has it: the attempts are bounded by five. When the
    current socket closes with a code other than 1000 and fewer than
    five attempts were made since the last successful open, exactly one
    reconnect is scheduled, with the backoff delay, and the attempt
    counter goes up by one; when that timeout fires a new socket is
    created and becomes the current one. When five attempts were made,
    the same close schedules nothing: no timeout is set, none is added
    to the pending ones, the counter stays where it is and no socket is
    opened; and on a client in a state of a session (one that satisfies
    [oneConnection]) that is the end: whatever events follow, no socket
    is created and no timeout is set. *)
Theorem abnormal_close_schedules_reconnect (s : State) (id : nat) (st : ReadyState)
    (code : Z) (reason : string) :
  ws s = Some id →
  readyStateOf id s = Some st →
  st ≠ CLOSED →
  wsUrlValid s = true →
  code ≠ 1000 →
  let r := step (EvClose id code reason) s in
  (reconnectAttempts s < 5 →
   timeoutsSet r.2 = [Z.min (1000 * 2 ^ (reconnectAttempts s + 1)) 30000]
   ∧ pendingTimeouts r.1 = pendingTimeouts s ++ [timeoutCount s]
   ∧ reconnectAttempts r.1 = reconnectAttempts s + 1
   ∧ socketsOpened (step (EvTimeout (timeoutCount s)) r.1).2 = [length (sockets s)]
   ∧ ws (step (EvTimeout (timeoutCount s)) r.1).1 = Some (length (sockets s))
   ∧ readyStateOf (length (sockets s)) (step (EvTimeout (timeoutCount s)) r.1).1
     = Some CONNECTING)
  ∧ (5 ≤ reconnectAttempts s →
     timeoutsSet r.2 = []
     ∧ socketsOpened r.2 = []
     ∧ pendingTimeouts r.1 = pendingTimeouts s
     ∧ reconnectTimeoutRef r.1 = reconnectTimeoutRef s
     ∧ reconnectAttempts r.1 = reconnectAttempts s
     ∧ readyStateOf id r.1 = Some CLOSED
     ∧ (oneConnection s → ∀ after : list Event,
          socketsOpened (steps after r.1).2 = []
          ∧ timeoutsSet (steps after r.1).2 = [])).
Proof.
  intros Hws Hst Hne Hurl Hcode r. split.
  - intros Hatt. by apply (abnormal_close_below_limit s id st).
  - intros Hatt.
    assert (id < length (sockets s))%nat as Hlt by (by eapply lookup_lt_Some).
    destruct (abnormal_close_at_limit s id st code reason Hst Hne Hatt)
      as (Ht & Ho & Hp & Hr & Ha & Hso).
    fold r in Ht, Ho, Hp, Hr, Ha, Hso.
    split_and!; try done.
    + unfold readyStateOf. rewrite Hso. by apply list_lookup_insert_eq.
    + intros (_ & _ & Hclosed & Hcur & _) after.
      apply giving_up_is_final_steps.
      * rewrite Hp. destruct (pendingTimeouts s) as [|t ts] eqn:E; [done|].
        destruct Hne. by apply (Hclosed ltac:(done) id st).
      * intros i st' Hi. rewrite Hso in Hi.
        destruct (decide (i = id)) as [->|Hneq].
        -- rewrite list_lookup_insert_eq in Hi by done. congruence.
        -- rewrite list_lookup_insert_ne in Hi by done.
           destruct (decide (st' = CLOSED)) as [|Hopen]; [done|].
           specialize (Hcur i st' Hi Hopen). congruence.
Qed.

Lemma abnormal_close_schedules_reconnect_witness :
  let s := (session None (fiveFailures ++ [EvOpen 5; EvClose 5 1006 ""; EvTimeout 6])).1 in
  let r := step (EvClose 6 1006 "") s in
  (reconnectAttempts s < 5 →
   timeoutsSet r.2 = [Z.min (1000 * 2 ^ (reconnectAttempts s + 1)) 30000]
   ∧ pendingTimeouts r.1 = pendingTimeouts s ++ [timeoutCount s]
   ∧ reconnectAttempts r.1 = reconnectAttempts s + 1
   ∧ socketsOpened (step (EvTimeout (timeoutCount s)) r.1).2 = [length (sockets s)]
   ∧ ws (step (EvTimeout (timeoutCount s)) r.1).1 = Some (length (sockets s))
   ∧ readyStateOf (length (sockets s)) (step (EvTimeout (timeoutCount s)) r.1).1
     = Some CONNECTING)
  ∧ (5 ≤ reconnectAttempts s →
     timeoutsSet r.2 = []
     ∧ socketsOpened r.2 = []
     ∧ pendingTimeouts r.1 = pendingTimeouts s
     ∧ reconnectTimeoutRef r.1 = reconnectTimeoutRef s
     ∧ reconnectAttempts r.1 = reconnectAttempts s
     ∧ readyStateOf 6 r.1 = Some CLOSED
     ∧ (oneConnection s → ∀ after : list Event,
          socketsOpened (steps after r.1).2 = []
          ∧ timeoutsSet (steps after r.1).2 = [])).
Proof.
  apply (abnormal_close_schedules_reconnect
           (session None (fiveFailures ++ [EvOpen 5; EvClose 5 1006 ""; EvTimeout 6])).1
           6%nat CONNECTING 1006 "");
    [reflexivity | reflexivity | done | reflexivity | done].
Defined.


(** A successful open puts the attempt counter back to zero, so the
    bound of five is on consecutive failures only. *)
Lemma open_resets_attempts (s : State) (id : nat) :
  readyStateOf id s = Some CONNECTING →
  reconnectAttempts (step (EvOpen id) s).1 = 0.
Proof.
  intros Hst. rewrite step_eq. unfold dispatch. unfold_hook. unfold_m.
  destruct s. crunch.
Qed.

(** ** Subscriptions *)

Lemma open_eq (s : State) (id : nat) :
  readyStateOf id s = Some CONNECTING →
  isConnected s = false →
  let r := dispatch (EvOpen id) s in
  effects_of r = [ConsoleLog "WebSocket connected"]
  ∧ sockets (state_of r) = <[id := OPEN]> (sockets s)
  ∧ ws (state_of r) = ws s
  ∧ isConnected (state_of r) = true
  ∧ needsRender (state_of r) = true
  ∧ mounted (state_of r) = mounted s
  ∧ watchlist (state_of r) = watchlist s
  ∧ reconnectAttempts (state_of r) = 0.
Proof.
  intros Hst Hc. unfold dispatch. unfold_hook. unfold_m. destruct s. crunch.
Qed.

(** C1 as stated fails for the empty watchlist: the socket opens, the
    client is connected, and no frame at all is sent. *)
Lemma empty_watchlist_sends_no_subscribe :
  let s := (mount (init (Some []) true)).1 in
  watchlist s = []
  ∧ readyStateOf 0 s = Some CONNECTING
  ∧ isConnected (step (EvOpen 0) s).1 = true
  ∧ framesSent (step (EvOpen 0) s).2 = [].
Proof. repeat split; vm_compute; reflexivity. Qed.

(** The render after the current socket opens sends the watchlist, once. *)
Lemma open_sends_watchlist (s : State) (id : nat) :
  mounted s = true →
  ws s = Some id →
  readyStateOf id s = Some CONNECTING →
  isConnected s = false →
  watchlist s ≠ [] →
  framesSent (step (EvOpen id) s).2 = [Subscribe (JS.toUpperCase <$> watchlist s)]
  ∧ WsSend id (Subscribe (JS.toUpperCase <$> watchlist s)) ∈ (step (EvOpen id) s).2.
Proof.
  intros Hm Hws Hst Hc Hwl.
  assert (id < length (sockets s))%nat as Hlt by (by eapply lookup_lt_Some).
  rewrite step_eq. cbn [fst snd].
  destruct (open_eq s id Hst Hc) as (He & Hso & Hw & Hic & Hnr & Hmo & Hwa & _).
  rewrite He.
  assert (renderEffects (state_of (dispatch (EvOpen id) s))
          = [WsSend id (Subscribe (JS.toUpperCase <$> watchlist s))]) as ->.
  { unfold renderEffects, sendEffects, currentIsOpen, readyStateOf.
    rewrite Hnr, Hmo, Hic, Hwa, Hw, Hso, Hm, Hws.
    rewrite list_lookup_insert_eq by done.
    rewrite bool_decide_true by (destruct (watchlist s); [done|cbn; lia]).
    by rewrite bool_decide_true. }
  split; [done|]. set_solver.
Qed.

(** With an empty watchlist the render after the open sends nothing. *)
Lemma open_sends_nothing_when_empty (s : State) (id : nat) :
  readyStateOf id s = Some CONNECTING →
  isConnected s = false →
  watchlist s = [] →
  framesSent (step (EvOpen id) s).2 = []
  ∧ ∀ j m, WsSend j m ∉ (step (EvOpen id) s).2.
Proof.
  intros Hst Hc Hwl. rewrite step_eq. cbn [fst snd].
  destruct (open_eq s id Hst Hc) as (He & _ & _ & _ & _ & _ & Hwa & _).
  rewrite He.
  assert (renderEffects (state_of (dispatch (EvOpen id) s)) = []) as ->.
  { unfold renderEffects. rewrite Hwa, Hwl. cbn [length].
    rewrite bool_decide_false by lia. by rewrite andb_false_r. }
  split; [done|]. intros j m Hin. rewrite app_nil_r in Hin.
  apply list_elem_of_singleton in Hin. discriminate Hin.
Qed.

(** The frame carries the watchlist as it is: it has no duplicate exactly
    when the upper-cased watchlist has none. A watchlist with a
    duplicate is reachable, [addToWatchlist] does not compare the new
    symbols with each other. *)
Lemma duplicate_in_watchlist_is_resent :
  let s := (session (Some []) [EvAddToWatchlist ["x"; "X"]]).1 in
  watchlist s = ["X"; "X"]
  ∧ framesSent (step (EvOpen 0) s).2 = [Subscribe ["X"; "X"]].
Proof. split; vm_compute; reflexivity. Qed.

(** Two entries that differ only in case are two distinct entries of the
    watchlist and go out as the same symbol twice. *)
Lemma case_variants_are_sent_twice :
  let s := (mount (init (Some ["aapl"; "AAPL"]) true)).1 in
  NoDup (watchlist s)
  ∧ framesSent (step (EvOpen 0) s).2 = [Subscribe ["AAPL"; "AAPL"]].
Proof.
  split; [|vm_compute; reflexivity].
  cbn. apply NoDup_cons. split; [|apply NoDup_singleton].
  intros Hin. apply list_elem_of_singleton in Hin. discriminate Hin.
Qed.

(** Every later render of a connected client sends the watchlist again:
    here the render is caused by a frame of an unknown type. *)
Lemma later_render_resubscribes :
  framesSent (step (EvMessage 0 statusFrame) connectedClient).2
  = [Subscribe defaultWatchlist].
Proof. vm_compute; reflexivity. Qed.

Lemma set_needsRender_id (s : State) : needsRender s = false → set_needsRender false s = s.
Proof. destruct s. cbn. by intros ->. Qed.

Lemma subscribe_step (s : State) (id : nat) (symbols : list string) :
  ws s = Some id →
  readyStateOf id s = Some OPEN →
  needsRender s = false →
  step (EvSubscribe symbols) s = (s, [WsSend id (Subscribe (JS.toUpperCase <$> symbols))]).
Proof.
  intros Hws Hst Hnr. rewrite step_eq. unfold dispatch, subscribe.
  rewrite sendMessage_eq. unfold state_of, effects_of. cbn [fst snd].
  rewrite set_needsRender_id by done.
  unfold renderEffects. rewrite Hnr. cbn [andb].
  unfold sendEffects, currentIsOpen. rewrite Hws, Hst.
  by rewrite bool_decide_true.
Qed.

(** C6 as stated fails: two calls of [subscribe] for the same symbol on
    a connected client send two subscribe frames. *)
Lemma subscribing_twice_sends_two_frames :
  framesSent (steps [EvSubscribe ["AAPL"]; EvSubscribe ["AAPL"]] connectedClient).2
  = [Subscribe ["AAPL"]; Subscribe ["AAPL"]].
Proof. vm_compute; reflexivity. Qed.

(** The unguarded sibling: removing a symbol that was never in the
    watchlist still sends an unsubscribe frame for it (and the render
    that follows sends the whole watchlist again). *)
Lemma removing_unknown_symbol_sends_unsubscribe :
  framesSent (step (EvRemoveFromWatchlist ["ZZZ"]) connectedClient).2
  = [Unsubscribe ["ZZZ"]; Subscribe defaultWatchlist]
  ∧ watchlist (step (EvRemoveFromWatchlist ["ZZZ"]) connectedClient).1 = defaultWatchlist.
Proof. split; vm_compute; reflexivity. Qed.

(** C6, as the code has it: [subscribe] keeps no record of what was
    sent, every call on an open socket sends one subscribe frame, so two
    calls in a row send two; [addToWatchlist] with symbols that are all in
    the watchlist already (after upper-casing) changes nothing and sends
    nothing. *)
Theorem subscribe_resends_and_add_is_guarded (s : State) (id : nat)
    (symbols known : list string) :
  ws s = Some id →
  readyStateOf id s = Some OPEN →
  needsRender s = false →
  Forall (λ x, JS.toUpperCase x ∈ watchlist s) known →
  steps [EvSubscribe symbols; EvSubscribe symbols] s
  = (s, [WsSend id (Subscribe (JS.toUpperCase <$> symbols));
         WsSend id (Subscribe (JS.toUpperCase <$> symbols))])
  ∧ step (EvAddToWatchlist known) s = (s, []).
Proof.
  intros Hws Hst Hnr Hall. split.
  - cbn [steps]. rewrite !(subscribe_step s id) by done. done.
  - rewrite step_eq. unfold dispatch, addToWatchlist. unfold_m.
    assert (filter (λ symbol, negb (JS.includes (watchlist s) symbol))
              (JS.toUpperCase <$> known) = []) as ->.
    { induction Hall as [|x l Hx Hl IH]; [done|]. cbn [fmap list_fmap].
      rewrite filter_cons_False; [done|].
      unfold JS.includes. rewrite bool_decide_true by done. cbn. tauto. }
    cbn [length]. rewrite bool_decide_false by lia. cbn.
    rewrite set_needsRender_id by done.
    unfold renderEffects. by rewrite Hnr.
Qed.

Lemma subscribe_resends_and_add_is_guarded_witness :
  steps [EvSubscribe ["aapl"]; EvSubscribe ["aapl"]] connectedClient
  = (connectedClient, [WsSend 0 (Subscribe (JS.toUpperCase <$> ["aapl"]));
                       WsSend 0 (Subscribe (JS.toUpperCase <$> ["aapl"]))])
  ∧ step (EvAddToWatchlist ["msft"; "Spy"]) connectedClient = (connectedClient, []).
Proof.
  apply (subscribe_resends_and_add_is_guarded connectedClient 0%nat ["aapl"] ["msft"; "Spy"]);
    [reflexivity | reflexivity | reflexivity | ].
  repeat constructor.
Defined.

(** ** Heartbeat *)

Lemma heartbeat_step (s : State) (id : nat) (now : string) :
  mounted s = true →
  ws s = Some id →
  readyStateOf id s = Some OPEN →
  needsRender s = false →
  step (EvHeartbeat now) s = (s, [WsSend id (Ping now)]).
Proof.
  intros Hm Hws Hst Hnr. rewrite step_eq. unfold dispatch, heartbeat. unfold_m.
  rewrite Hm. unfold currentIsOpen at 1 2 3. rewrite Hws, Hst.
  rewrite bool_decide_true by done. cbn [when].
  rewrite sendMessage_eq. cbn.
  rewrite set_needsRender_id by done.
  unfold renderEffects. rewrite Hnr. cbn [andb].
  unfold sendEffects, currentIsOpen. rewrite Hws, Hst.
  by rewrite bool_decide_true.
Qed.

(** C7 as stated fails on its timeout part: three heartbeat ticks go by
    (90 s, past the 60 s allowed for a pong) with no inbound frame at
    all; three pings were sent, nothing was closed, the socket is still
    open, no reconnect is pending or started and the attempt counter is
    still zero. *)
Lemma missing_pong_changes_nothing :
  let ticks := [EvHeartbeat "2024-01-01T10:00:30.000Z";
                EvHeartbeat "2024-01-01T10:01:00.000Z";
                EvHeartbeat "2024-01-01T10:01:30.000Z"] in
  let r := steps ticks connectedClient in
  framesSent r.2 = [Ping "2024-01-01T10:00:30.000Z"; Ping "2024-01-01T10:01:00.000Z";
                    Ping "2024-01-01T10:01:30.000Z"]
  ∧ closeCalls r.2 = []
  ∧ socketsOpened r.2 = []
  ∧ timeoutsSet r.2 = []
  ∧ readyStateOf 0 r.1 = Some OPEN
  ∧ pendingTimeouts r.1 = []
  ∧ reconnectAttempts r.1 = 0.
Proof. repeat split; vm_compute; reflexivity. Qed.

(** C7, as the code has it: the heartbeat interval is installed with a
    period of 30000 ms, and every tick on a connected client sends one
    ping on the current socket. Pongs are not tracked: after any number
    of ticks the state is exactly the state before them, so the socket
    is still open, the attempt counter has not moved and nothing but
    the pings was done. *)
Theorem heartbeat_pings_without_timeout (s : State) (id : nat) (nows : list string) :
  mounted s = true →
  ws s = Some id →
  readyStateOf id s = Some OPEN →
  needsRender s = false →
  steps (EvHeartbeat <$> nows) s = (s, (λ now, WsSend id (Ping now)) <$> nows)
  ∧ ∀ saved urlValid, SetInterval 30000 ∈ (mount (init saved urlValid)).2.
Proof.
  intros Hm Hws Hst Hnr. split.
  - induction nows as [|now nows IH]; [done|].
    cbn [fmap list_fmap steps]. rewrite (heartbeat_step s id) by done.
    change (list_fmap _ _ EvHeartbeat nows) with (EvHeartbeat <$> nows).
    by rewrite IH.
  - intros saved urlValid. destruct urlValid; vm_compute; set_solver.
Qed.

Lemma heartbeat_pings_without_timeout_witness :
  steps (EvHeartbeat <$> ["2024-01-01T10:00:30.000Z"; "2024-01-01T10:01:00.000Z"]) connectedClient
  = (connectedClient,
     (λ now, WsSend 0 (Ping now)) <$> ["2024-01-01T10:00:30.000Z"; "2024-01-01T10:01:00.000Z"])
  ∧ ∀ saved urlValid, SetInterval 30000 ∈ (mount (init saved urlValid)).2.
Proof.
  apply (heartbeat_pings_without_timeout connectedClient 0%nat
           ["2024-01-01T10:00:30.000Z"; "2024-01-01T10:01:00.000Z"]); reflexivity.
Defined.

(** ** Shutdown *)

(** After the unmount, with no timeout pending, an event in which no
    socket closes abnormally opens no socket and sets no timeout. *)
Lemma quiet_step (e : Event) (s : State) :
  pendingTimeouts s = [] →
  mounted s = false →
  cleanClose e →
  pendingTimeouts (step e s).1 = []
  ∧ mounted (step e s).1 = false
  ∧ socketsOpened (step e s).2 = []
  ∧ timeoutsSet (step e s).2 = [].
Proof.
  intros Hp Hm Hc. rewrite step_eq. cbn [fst snd].
  rewrite socketsOpened_app, timeoutsSet_app.
  destruct (renderEffects_quiet (state_of (dispatch e s))) as (-> & -> & _).
  rewrite !app_nil_r. proj.
  destruct e; unfold dispatch; unfold_hook; unfold_m; destruct s.
  all: crunch.
  all: match goal with H : _ ∈ [] |- _ => by apply not_elem_of_nil in H end.
Qed.

Lemma quiet_steps (es : list Event) (s : State) :
  pendingTimeouts s = [] →
  mounted s = false →
  Forall cleanClose es →
  pendingTimeouts (steps es s).1 = []
  ∧ socketsOpened (steps es s).2 = []
  ∧ timeoutsSet (steps es s).2 = [].
Proof.
  intros Hp Hm Hall. revert s Hp Hm.
  induction Hall as [|e es He Hes IH]; intros s Hp Hm; [done|].
  cbn [steps].
  destruct (quiet_step e s Hp Hm He) as (Hp1 & Hm1 & Ho1 & Ht1).
  destruct (step e s) as [s1 o1]. cbn [fst snd] in *.
  destruct (IH s1 Hp1 Hm1) as (Hp2 & Ho2 & Ht2).
  destruct (steps es s1) as [s2 o2]. cbn [fst snd] in *.
  by rewrite socketsOpened_app, timeoutsSet_app, Ho1, Ho2, Ht1, Ht2.
Qed.

Lemma filter_tracked (l : list nat) (t : nat) :
  (∀ x, x ∈ l → Some t = Some x) → filter (λ x, x ≠ t) l = [].
Proof.
  induction l as [|x l IH]; intros H; [done|].
  rewrite filter_cons_False.
  - apply IH. intros y Hy. apply H. set_solver.
  - assert (Some t = Some x) as Heq by (apply H; set_solver). intros Hne. congruence.
Qed.

Lemma unmount_step (s : State) (id : nat) :
  mounted s = true →
  ws s = Some id →
  readyStateOf id s = Some OPEN →
  (∀ t, t ∈ pendingTimeouts s → reconnectTimeoutRef s = Some t) →
  closeCalls (step EvUnmount s).2 = [(id, 1000)]
  ∧ readyStateOf id (step EvUnmount s).1 = Some CLOSING
  ∧ pendingTimeouts (step EvUnmount s).1 = []
  ∧ mounted (step EvUnmount s).1 = false
  ∧ socketsOpened (step EvUnmount s).2 = []
  ∧ timeoutsSet (step EvUnmount s).2 = [].
Proof.
  intros Hm Hws Hst Htr.
  assert (id < length (sockets s))%nat as Hlt by (by eapply lookup_lt_Some).
  rewrite step_eq. cbn [fst snd].
  rewrite closeCalls_app, socketsOpened_app, timeoutsSet_app.
  destruct (renderEffects_quiet (state_of (dispatch EvUnmount s))) as (-> & -> & ->).
  rewrite !app_nil_r. unfold readyStateOf in *. proj.
  unfold dispatch. unfold_hook. unfold_m. destruct s. cbn in *. subst.
  destruct reconnectTimeoutRef0 as [t|]; crunch.
  all: rewrite list_lookup_insert_eq by done.
  all: repeat split; try done.
  1-4: by apply filter_tracked.
  all: destruct pendingTimeouts0 as [|x l]; [done|].
  all: by specialize (Htr x ltac:(set_solver)).
Qed.

(** The same for any state that keeps track of its pending timeout. *)
Lemma shutdown_is_final (s : State) (id : nat) (es : list Event) :
  mounted s = true →
  ws s = Some id →
  readyStateOf id s = Some OPEN →
  (∀ t, t ∈ pendingTimeouts s → reconnectTimeoutRef s = Some t) →
  Forall cleanClose es →
  closeCalls (step EvUnmount s).2 = [(id, 1000)]
  ∧ readyStateOf id (step EvUnmount s).1 = Some CLOSING
  ∧ socketsOpened (step EvUnmount s).2 = []
  ∧ timeoutsSet (step EvUnmount s).2 = []
  ∧ socketsOpened (steps es (step EvUnmount s).1).2 = []
  ∧ timeoutsSet (steps es (step EvUnmount s).1).2 = []
  ∧ pendingTimeouts (steps es (step EvUnmount s).1).1 = [].
Proof.
  intros Hm Hws Hst Htr Hes.
  destruct (unmount_step s id Hm Hws Hst Htr) as (Hc & Hr & Hp & Hm' & Ho & Ht).
  destruct (quiet_steps es _ Hp Hm' Hes) as (Hp2 & Ho2 & Ht2).
  done.
Qed.


(** *** The invariant of a mounted client *)

Lemma passive_view (e : Event) (s : State) :
  match e with
  | EvOpen _ | EvClose _ _ _ | EvTimeout _ | EvUnmount => False
  | _ => True
  end →
  connectionView (state_of (dispatch e s)) = connectionView s.
Proof.
  intros He. destruct e; try done.
  all: unfold dispatch; unfold_hook; unfold_m; destruct s; crunch.
Qed.

Lemma open_view (id : nat) (s : State) :
  connectionView (state_of (dispatch (EvOpen id) s)) =
  if bool_decide (sockets s !! id = Some CONNECTING)
  then (<[id := OPEN]> (sockets s), pendingTimeouts s, reconnectTimeoutRef s, ws s,
        mounted s, true)
  else connectionView s.
Proof.
  unfold dispatch. unfold_hook. unfold_m. destruct s. crunch.
Qed.

Lemma close_view (id : nat) (code : Z) (reason : string) (s : State) :
  connectionView (state_of (dispatch (EvClose id code reason) s)) =
  if bool_decide (is_Some (sockets s !! id) ∧ sockets s !! id ≠ Some CLOSED)
  then
    if bool_decide (code ≠ 1000) && bool_decide (reconnectAttempts s < 5)
    then (<[id := CLOSED]> (sockets s), pendingTimeouts s ++ [timeoutCount s],
          Some (timeoutCount s), ws s, mounted s, false)
    else (<[id := CLOSED]> (sockets s), pendingTimeouts s, reconnectTimeoutRef s,
          ws s, mounted s, false)
  else connectionView s.
Proof.
  unfold dispatch. unfold_hook. unfold_m. destruct s. crunch.
Qed.

Lemma timeout_view (tid : nat) (s : State) :
  connectionView (state_of (dispatch (EvTimeout tid) s)) =
  if bool_decide (tid ∈ pendingTimeouts s)
  then
    if currentIsOpen s
    then (sockets s, filter (λ t, t ≠ tid) (pendingTimeouts s), reconnectTimeoutRef s,
          ws s, mounted s, isConnected s)
    else if wsUrlValid s
    then (sockets s ++ [CONNECTING], filter (λ t, t ≠ tid) (pendingTimeouts s),
          reconnectTimeoutRef s, Some (length (sockets s)), mounted s, isConnected s)
    else (sockets s, filter (λ t, t ≠ tid) (pendingTimeouts s), reconnectTimeoutRef s,
          ws s, mounted s, isConnected s)
  else connectionView s.
Proof.
  unfold dispatch. unfold_hook. unfold_m. destruct s. crunch.
Qed.

Lemma oneConnection_view (s s' : State) :
  connectionView s' = connectionView s → oneConnection s → oneConnection s'.
Proof.
  unfold connectionView, oneConnection. intros H. simplify_eq.
  by repeat match goal with H : _ = _ |- _ => rewrite H; clear H end.
Qed.

Lemma mount_oneConnection (saved : option (list string)) (urlValid : bool) :
  oneConnection (mount (init saved urlValid)).1.
Proof.
  destruct urlValid; unfold oneConnection; cbn.
  - repeat split; try done.
    + intros t Ht. by apply not_elem_of_nil in Ht.
    + intros [|i] st Hi Hst; [done|]. by destruct i.
  - repeat split; try done.
    intros t Ht. by apply not_elem_of_nil in Ht.
Qed.

Lemma step_oneConnection (e : Event) (s : State) :
  e ≠ EvUnmount → oneConnection s → oneConnection (step e s).1.
Proof.
  intros Hne Hinv. rewrite step_eq. cbn [fst].
  apply (oneConnection_view (state_of (dispatch e s))); [done|].
  destruct Hinv as (Hm & Htr & Hpend & Hcur & Hconn).
  assert (∀ v, connectionView (state_of (dispatch e s)) = v →
               (let '(so, pe, re, w, m, c) := v in
                m = true
                ∧ (∀ t, t ∈ pe → re = Some t)
                ∧ (pe ≠ [] → ∀ i st, so !! i = Some st → st = CLOSED)
                ∧ (∀ i st, so !! i = Some st → st ≠ CLOSED → w = Some i)
                ∧ (c = true → ∃ i, w = Some i ∧ so !! i = Some OPEN)) →
               oneConnection (state_of (dispatch e s))) as Hgoal.
  { intros [[[[[so pe] re] w] m] c] Hv. unfold connectionView in Hv. simplify_eq.
    intros H. exact H. }
  destruct e; try done.
  all: try (apply (oneConnection_view s); [by apply passive_view | done]).
  - (* open *)
    eapply Hgoal; [apply open_view|].
    case_bool_decide as Hst; [|done].
    assert (id < length (sockets s))%nat as Hlt by (by eapply lookup_lt_Some).
    assert (ws s = Some id) as Hws by (by eapply Hcur).
    repeat split; try done.
    + intros Hp i st. destruct (decide (i = id)) as [->|Hi].
      * by specialize (Hpend Hp _ _ Hst).
      * rewrite list_lookup_insert_ne by done. by apply Hpend.
    + intros i st. destruct (decide (i = id)) as [->|Hi].
      * done.
      * rewrite list_lookup_insert_ne by done. by apply Hcur.
    + intros _. exists id. split; [done|]. by apply list_lookup_insert_eq.
  - (* close *)
    eapply Hgoal; [apply close_view|].
    case_bool_decide as Hst; [|done].
    destruct Hst as [[st Hst] Hnc]. rewrite Hst in Hnc.
    assert (st ≠ CLOSED) as Hst' by congruence.
    assert (ws s = Some id) as Hws by (by eapply Hcur).
    assert (pendingTimeouts s = []) as Hnil.
    { destruct (pendingTimeouts s) as [|x l] eqn:E; [done|].
      exfalso. apply Hst'. by eapply Hpend. }
    assert (id < length (sockets s))%nat as Hlt by (by eapply lookup_lt_Some).
    assert (∀ i st', <[id:=CLOSED]> (sockets s) !! i = Some st' → st' = CLOSED) as Hall.
    { intros i st'. destruct (decide (i = id)) as [->|Hi].
      - rewrite list_lookup_insert_eq by done. congruence.
      - rewrite list_lookup_insert_ne by done. intros Hi'.
        destruct (decide (st' = CLOSED)) as [|Hopen]; [done|].
        specialize (Hcur _ _ Hi' Hopen). congruence. }
    destruct (_ && _).
    + rewrite Hnil. repeat split; try done.
      * intros t Ht. apply list_elem_of_singleton in Ht. by subst.
      * intros i st' Hi Hopen. by specialize (Hall _ _ Hi).
    + rewrite Hnil. repeat split; try done.
      * intros t Ht. by apply not_elem_of_nil in Ht.
      * intros i st' Hi Hopen. by specialize (Hall _ _ Hi).
  - (* timeout *)
    eapply Hgoal; [apply timeout_view|].
    case_bool_decide as Hin; [|done].
    assert (filter (λ t, t ≠ tid) (pendingTimeouts s) = []) as ->.
    { apply filter_tracked. intros x Hx.
      rewrite <- (Htr tid Hin). by rewrite (Htr x Hx). }
    assert (∀ i st, sockets s !! i = Some st → st = CLOSED) as Hall.
    { apply Hpend. intros E. rewrite E in Hin. by apply not_elem_of_nil in Hin. }
    assert (currentIsOpen s = false) as ->.
    { unfold currentIsOpen, readyStateOf. destruct (ws s) as [i|]; [|done].
      apply bool_decide_false. intros Hi. by specialize (Hall _ _ Hi). }
    assert (isConnected s = false) as ->.
    { destruct (isConnected s); [|done].
      destruct Hconn as (i & _ & Hi); [done|]. by specialize (Hall _ _ Hi). }
    destruct (wsUrlValid s).
    + repeat split; try done.
      * intros t Ht. by apply not_elem_of_nil in Ht.
      * intros i st Hi Hopen. apply lookup_app_Some in Hi as [Hi|[Hge Hi]].
        -- by specialize (Hall _ _ Hi).
        -- apply list_lookup_singleton_Some in Hi as [Hi _]. f_equal. lia.
    + repeat split; try done.
      intros t Ht. by apply not_elem_of_nil in Ht.
Qed.

Lemma steps_oneConnection (es : list Event) (s : State) :
  Forall (λ e, e ≠ EvUnmount) es → oneConnection s → oneConnection (steps es s).1.
Proof.
  intros Hes. revert s. induction Hes as [|e es He Hes IH]; intros s Hinv; [done|].
  cbn [steps]. pose proof (step_oneConnection e s He Hinv) as H1.
  destruct (step e s) as [s1 o1]. cbn [fst] in H1.
  specialize (IH s1 H1). by destruct (steps es s1) as [s2 o2].
Qed.

Lemma session_oneConnection (saved : option (list string)) (es : list Event) :
  Forall (λ e, e ≠ EvUnmount) es → oneConnection (session saved es).1.
Proof.
  intros Hes. unfold session.
  pose proof (mount_oneConnection saved true) as H0.
  destruct (mount (init saved true)) as [s0 o0]. cbn [fst] in H0.
  pose proof (steps_oneConnection es s0 Hes H0) as H1.
  by destruct (steps es s0) as [s1 o1].
Qed.

(** C1, as the code has it: take a client at any point of its life
    (mounted, then any events short of the unmount) at which a socket is
    connecting, after no matter how many disconnects. When that socket
    opens, the render that follows sends nothing if the watchlist is
    empty, and otherwise exactly one frame: a subscribe frame whose
    symbols are the entries of the watchlist upper-cased, one for each
    entry and in the order of the watchlist. Whatever is sent is sent on
    the socket that opened. Nothing that was sent before the disconnect
    enters into it. *)
Theorem open_resubscribes_watchlist (saved : option (list string))
    (before : list Event) (id : nat) :
  Forall (λ e, e ≠ EvUnmount) before →
  readyStateOf id (session saved before).1 = Some CONNECTING →
  let s := (session saved before).1 in
  framesSent (step (EvOpen id) s).2
  = match watchlist s with
    | [] => []
    | _ :: _ => [Subscribe (JS.toUpperCase <$> watchlist s)]
    end
  ∧ (∀ j m, WsSend j m ∈ (step (EvOpen id) s).2 →
            j = id ∧ m = Subscribe (JS.toUpperCase <$> watchlist s)).
Proof.
  intros Hbefore Hst s.
  destruct (session_oneConnection saved before Hbefore) as (Hm & _ & _ & Hcur & Hconn).
  assert (ws s = Some id) as Hws by (by eapply Hcur).
  assert (isConnected s = false) as Hc.
  { destruct (isConnected s) eqn:Hc; [|done].
    destruct Hconn as (i & Hi & Hopen); [done|].
    unfold readyStateOf in Hst. subst s. rewrite Hws in Hi.
    injection Hi as <-. rewrite Hst in Hopen. discriminate Hopen. }
  destruct (watchlist s) as [|x wl] eqn:Hwl.
  - destruct (open_sends_nothing_when_empty s id Hst Hc Hwl) as [Hf Hnone].
    split; [done|]. intros j m Hin. by apply Hnone in Hin.
  - destruct (open_sends_watchlist s id Hm Hws Hst Hc) as [Hf Hin]; [by rewrite Hwl|].
    rewrite Hwl in Hf. split; [done|].
    intros j m Hjm. rewrite step_eq in Hjm. cbn [snd] in Hjm.
    destruct (open_eq s id Hst Hc) as (He & Hso & Hw & _ & _ & _ & Hwa & _).
    rewrite He in Hjm. apply elem_of_app in Hjm as [Hjm|Hjm].
    { apply list_elem_of_singleton in Hjm. discriminate Hjm. }
    unfold renderEffects, sendEffects in Hjm. rewrite Hw, Hws, Hwa, Hwl in Hjm.
    destruct (_ && _); [|by apply not_elem_of_nil in Hjm].
    destruct (currentIsOpen _); apply list_elem_of_singleton in Hjm;
      [by injection Hjm as -> ->|discriminate Hjm].
Qed.

Lemma open_resubscribes_watchlist_witness :
  let before := [EvOpen 0%nat; EvAddToWatchlist ["shop"]; EvClose 0 1006 ""; EvTimeout 1] in
  let s := (session None before).1 in
  framesSent (step (EvOpen 1) s).2
  = match watchlist s with
    | [] => []
    | _ :: _ => [Subscribe (JS.toUpperCase <$> watchlist s)]
    end
  ∧ (∀ j m, WsSend j m ∈ (step (EvOpen 1) s).2 →
            j = 1%nat ∧ m = Subscribe (JS.toUpperCase <$> watchlist s)).
Proof.
  apply (open_resubscribes_watchlist None
           [EvOpen 0%nat; EvAddToWatchlist ["shop"]; EvClose 0 1006 ""; EvTimeout 1] 1%nat).
  - repeat (constructor; [discriminate|]). constructor.
  - reflexivity.
Defined.

(** C5: take a client at any point of its life (mounted, then any
    events short of the unmount) at which it is connected. Unmounting it
    closes the current socket with code 1000, opens no socket and sets
    no timeout; and afterwards, through any events in which no socket
    closes with another code (timeouts firing and heartbeat ticks
    included), no socket is opened, no timeout is set and none is
    pending. *)
Theorem clean_shutdown_never_reconnects (saved : option (list string))
    (before after : list Event) (id : nat) :
  Forall (λ e, e ≠ EvUnmount) before →
  ws (session saved before).1 = Some id →
  readyStateOf id (session saved before).1 = Some OPEN →
  Forall cleanClose after →
  let s := (session saved before).1 in
  closeCalls (step EvUnmount s).2 = [(id, 1000)]
  ∧ readyStateOf id (step EvUnmount s).1 = Some CLOSING
  ∧ socketsOpened (step EvUnmount s).2 = []
  ∧ timeoutsSet (step EvUnmount s).2 = []
  ∧ socketsOpened (steps after (step EvUnmount s).1).2 = []
  ∧ timeoutsSet (steps after (step EvUnmount s).1).2 = []
  ∧ pendingTimeouts (steps after (step EvUnmount s).1).1 = [].
Proof.
  intros Hbefore Hws Hst Hafter s.
  destruct (session_oneConnection saved before Hbefore) as (Hm & Htr & _).
  by apply shutdown_is_final.
Qed.

Lemma clean_shutdown_never_reconnects_witness :
  let before := [EvOpen 0%nat; EvClose 0 1006 ""; EvTimeout 1; EvOpen 1] in
  let after := [EvHeartbeat "2024-01-01T10:00:30.000Z"; EvClose 1 1000 "Manual disconnect";
                EvTimeout 1; EvTimeout 2; EvSubscribe ["AAPL"]] in
  let s := (session None before).1 in
  closeCalls (step EvUnmount s).2 = [(1%nat, 1000)]
  ∧ readyStateOf 1 (step EvUnmount s).1 = Some CLOSING
  ∧ socketsOpened (step EvUnmount s).2 = []
  ∧ timeoutsSet (step EvUnmount s).2 = []
  ∧ socketsOpened (steps after (step EvUnmount s).1).2 = []
  ∧ timeoutsSet (steps after (step EvUnmount s).1).2 = []
  ∧ pendingTimeouts (steps after (step EvUnmount s).1).1 = [].
Proof.
  apply (clean_shutdown_never_reconnects None
           [EvOpen 0%nat; EvClose 0 1006 ""; EvTimeout 1; EvOpen 1]
           [EvHeartbeat "2024-01-01T10:00:30.000Z"; EvClose 1 1000 "Manual disconnect";
            EvTimeout 1; EvTimeout 2; EvSubscribe ["AAPL"]] 1%nat).
  - repeat (constructor; [discriminate|]). constructor.
  - reflexivity.
  - reflexivity.
  - repeat constructor.
Defined.

(** Without the premise on the close code the property is lost: the
    handler has no notion of shutdown, so a socket that ends with code
    1006 after the unmount is reconnected like any other. *)
Lemma abnormal_close_after_shutdown_reconnects :
  let s := (step EvUnmount connectedClient).1 in
  socketsOpened (steps [EvClose 0 1006 ""; EvTimeout 1] s).2 = [1%nat].
Proof. vm_compute; reflexivity. Qed.

(** * Further properties of the hook and the provider *)

(** ** Exceptions *)




(** ** What an event leaves alone *)

(** X2. The cache outlives the connection: only a [message] event can change
    it. A close, a reconnect, an error, the unmount, the heartbeat and
    the watchlist operations all leave every cached record in place. *)
Theorem cache_changes_only_on_message (e : Event) (s : State) :
  match e with EvMessage _ _ => False | _ => True end →
  marketData (step e s).1 = marketData s.
Proof.
  intros He. rewrite step_eq. cbn [fst]. proj.
  destruct e; try done.
  all: unfold dispatch; unfold_hook; unfold_m; destruct s; crunch.
Qed.

Lemma cache_changes_only_on_message_witness :
  let s := (step (EvMessage 0 (marketDataFrame "AAPL" (quote "AAPL" 150 "2024-01-01T10:00:02.000Z")))
              connectedClient).1 in
  marketData (step (EvClose 0 1006 "") s).1 = marketData s.
Proof.
  cbv zeta. apply (cache_changes_only_on_message (EvClose 0 1006 "")). exact I.
Defined.

(** X3. The watchlist is only changed by its three operations: no socket
    event, timeout, heartbeat, direct subscribe call or unmount touches
    it. *)
Theorem watchlist_changes_only_by_its_operations (e : Event) (s : State) :
  match e with
  | EvAddToWatchlist _ | EvRemoveFromWatchlist _ | EvClearWatchlist => False
  | _ => True
  end →
  watchlist (step e s).1 = watchlist s.
Proof.
  intros He. rewrite step_eq. cbn [fst]. proj.
  destruct e; try done.
  all: unfold dispatch; unfold_hook; unfold_m; destruct s; crunch.
Qed.

Lemma watchlist_changes_only_by_its_operations_witness :
  watchlist (step (EvUnsubscribe ["AAPL"]) connectedClient).1 = watchlist connectedClient.
Proof.
  apply (watchlist_changes_only_by_its_operations (EvUnsubscribe ["AAPL"])). exact I.
Defined.

(** ** The attempt counter and the delays *)

Lemma step_attempts (e : Event) (s : State) :
  0 ≤ reconnectAttempts s ≤ 5 →
  0 ≤ reconnectAttempts (step e s).1 ≤ 5
  ∧ Forall (λ d, 2000 ≤ d ≤ 30000) (timeoutsSet (step e s).2).
Proof.
  intros Ha. rewrite step_eq. cbn [fst snd]. proj.
  rewrite timeoutsSet_app.
  destruct (renderEffects_quiet (state_of (dispatch e s))) as (-> & _ & _).
  rewrite app_nil_r.
  destruct e; unfold dispatch; unfold_hook; unfold_m; destruct s.
  all: crunch; try (split; [lia|by constructor]).
  all: split; [lia|].
  all: constructor; [|constructor].
  all: assert (2 ^ 1 ≤ 2 ^ (reconnectAttempts0 + 1)) as Hp
    by (apply Z.pow_le_mono_r; lia).
  all: change (2 ^ 1) with 2 in Hp.
  all: apply Z.min_case_strong; lia.
Qed.

Lemma steps_attempts (es : list Event) (s : State) :
  0 ≤ reconnectAttempts s ≤ 5 →
  0 ≤ reconnectAttempts (steps es s).1 ≤ 5
  ∧ Forall (λ d, 2000 ≤ d ≤ 30000) (timeoutsSet (steps es s).2).
Proof.
  revert s. induction es as [|e es IH]; intros s Ha; [by split; [|constructor]|].
  cbn [steps]. destruct (step_attempts e s Ha) as [H1 H2].
  destruct (step e s) as [s1 o1]. cbn [fst snd] in *.
  destruct (IH s1 H1) as [H3 H4].
  destruct (steps es s1) as [s2 o2]. cbn [fst snd] in *.
  split; [done|]. rewrite timeoutsSet_app. by apply Forall_app.
Qed.

(** X4. Whatever happens to a mounted client, the attempt counter stays
    between 0 and 5, and every reconnect timeout it ever sets has a
    delay between 2 s and 30 s. *)
Theorem attempts_and_delays_bounded (saved : option (list string)) (es : list Event) :
  0 ≤ reconnectAttempts (session saved es).1 ≤ 5
  ∧ Forall (λ d, 2000 ≤ d ≤ 30000) (timeoutsSet (session saved es).2).
Proof.
  unfold session.
  assert (0 ≤ reconnectAttempts (mount (init saved true)).1 ≤ 5) as H0
    by (vm_compute; split; discriminate).
  assert (timeoutsSet (mount (init saved true)).2 = []) as H0' by done.
  destruct (mount (init saved true)) as [s0 o0]. cbn [fst snd] in *.
  destruct (steps_attempts es s0 H0) as [H1 H2].
  destruct (steps es s0) as [s1 o1]. cbn [fst snd] in *.
  split; [done|]. rewrite timeoutsSet_app, H0'. done.
Qed.

(** ** One connection at a time *)

Lemma step_pending_length (e : Event) (s : State) :
  e ≠ EvUnmount → oneConnection s →
  (length (pendingTimeouts s) ≤ 1)%nat →
  (length (pendingTimeouts (step e s).1) ≤ 1)%nat.
Proof.
  intros Hne (Hm & Htr & Hpend & Hcur & Hconn) Hlen.
  rewrite step_eq. cbn [fst]. proj.
  change (pendingTimeouts (state_of (dispatch e s)))
    with (connectionView (state_of (dispatch e s))).1.1.1.1.2.
  destruct e; try done.
  all: try (rewrite passive_view by done; done).
  - rewrite open_view. by case_bool_decide.
  - rewrite close_view. case_bool_decide as Hst; [|done].
    destruct Hst as [[st Hst] Hnc]. rewrite Hst in Hnc.
    assert (pendingTimeouts s = []) as Hnil.
    { destruct (pendingTimeouts s) as [|x l] eqn:E; [done|].
      exfalso. apply Hnc. f_equal. by eapply Hpend. }
    destruct (_ && _); cbn; rewrite Hnil; cbn; lia.
  - rewrite timeout_view. case_bool_decide as Hin; [|done].
    pose proof (length_filter (λ t, t ≠ tid) (pendingTimeouts s)) as Hf.
    destruct (currentIsOpen s), (wsUrlValid s); cbn; lia.
Qed.

Lemma steps_pending_length (es : list Event) (s : State) :
  Forall (λ e, e ≠ EvUnmount) es → oneConnection s →
  (length (pendingTimeouts s) ≤ 1)%nat →
  (length (pendingTimeouts (steps es s).1) ≤ 1)%nat.
Proof.
  intros Hes. revert s. induction Hes as [|e es He Hes IH]; intros s Hinv Hlen; [done|].
  cbn [steps].
  pose proof (step_oneConnection e s He Hinv) as H1.
  pose proof (step_pending_length e s He Hinv Hlen) as H2.
  destruct (step e s) as [s1 o1]. cbn [fst] in *.
  specialize (IH s1 H1 H2). by destruct (steps es s1) as [s2 o2].
Qed.

Lemma session_pending_length (saved : option (list string)) (before : list Event) :
  Forall (λ e, e ≠ EvUnmount) before →
  (length (pendingTimeouts (session saved before).1) ≤ 1)%nat.
Proof.
  intros Hbefore. unfold session.
  pose proof (mount_oneConnection saved true) as H0.
  assert (length (pendingTimeouts (mount (init saved true)).1) ≤ 1)%nat as H0'
    by (vm_compute; lia).
  destruct (mount (init saved true)) as [s0 o0]. cbn [fst] in *.
  pose proof (steps_pending_length before s0 Hbefore H0 H0') as H1.
  by destruct (steps before s0) as [s1 o1].
Qed.

(** X5. A mounted client has one connection at a time: at every point of
    its life at most one socket is not closed, and that socket is the
    current one; at most one reconnect timeout is pending; and while one
    is pending every socket is closed. *)
Theorem one_connection_at_a_time (saved : option (list string)) (before : list Event) :
  Forall (λ e, e ≠ EvUnmount) before →
  let s := (session saved before).1 in
  (∀ i j sti stj,
      sockets s !! i = Some sti → sti ≠ CLOSED →
      sockets s !! j = Some stj → stj ≠ CLOSED →
      i = j ∧ ws s = Some i)
  ∧ (length (pendingTimeouts s) ≤ 1)%nat
  ∧ (pendingTimeouts s ≠ [] → ∀ i st, sockets s !! i = Some st → st = CLOSED).
Proof.
  intros Hbefore s.
  destruct (session_oneConnection saved before Hbefore) as (Hm & Htr & Hpend & Hcur & Hconn).
  fold s in Hm, Htr, Hpend, Hcur, Hconn.
  split; [|split; [|done]].
  - intros i j sti stj Hi Hsti Hj Hstj.
    pose proof (Hcur _ _ Hi Hsti) as Hwi. pose proof (Hcur _ _ Hj Hstj) as Hwj.
    split; [congruence|done].
  - by apply session_pending_length.
Qed.

Lemma one_connection_at_a_time_witness :
  let s := (session None fiveFailures).1 in
  (∀ i j sti stj,
      sockets s !! i = Some sti → sti ≠ CLOSED →
      sockets s !! j = Some stj → stj ≠ CLOSED →
      i = j ∧ ws s = Some i)
  ∧ (length (pendingTimeouts s) ≤ 1)%nat
  ∧ (pendingTimeouts s ≠ [] → ∀ i st, sockets s !! i = Some st → st = CLOSED).
Proof.
  apply (one_connection_at_a_time None fiveFailures).
  repeat (constructor; [discriminate|]). constructor.
Defined.

(** ** When nothing will reconnect *)

Lemma renderEffects_no_socket (s : State) :
  ws s = None → framesSent (renderEffects s) = [].
Proof.
  intros Hws. unfold renderEffects, sendEffects. rewrite Hws.
  by destruct (_ && _).
Qed.

(** A client with no current socket, no pending timeout and only closed
    sockets stays so, and does nothing on the network. *)
Lemma dead_step (e : Event) (s : State) :
  pendingTimeouts s = [] →
  ws s = None →
  (∀ i st, sockets s !! i = Some st → st = CLOSED) →
  (pendingTimeouts (step e s).1 = []
   ∧ ws (step e s).1 = None
   ∧ sockets (step e s).1 = sockets s)
  ∧ socketsOpened (step e s).2 = []
  ∧ timeoutsSet (step e s).2 = []
  ∧ framesSent (step e s).2 = [].
Proof.
  intros Hp Hws Hall. rewrite step_eq. cbn [fst snd]. proj.
  rewrite socketsOpened_app, timeoutsSet_app, framesSent_app.
  destruct (renderEffects_quiet (state_of (dispatch e s))) as (-> & -> & _).
  rewrite !app_nil_r.
  assert (ws (state_of (dispatch e s)) = None
          ∧ pendingTimeouts (state_of (dispatch e s)) = []
          ∧ sockets (state_of (dispatch e s)) = sockets s
          ∧ socketsOpened (effects_of (dispatch e s)) = []
          ∧ timeoutsSet (effects_of (dispatch e s)) = []
          ∧ framesSent (effects_of (dispatch e s)) = []) as (H1 & H2 & H3 & H4 & H5 & H6).
  { destruct e; unfold dispatch; unfold_hook; unfold_m; destruct s.
    all: crunch.
    all: try match goal with H : _ ∈ [] |- _ => by apply not_elem_of_nil in H end.
    all: try match goal with
             | H : ?l !! ?i = Some ?st |- _ =>
                 by specialize (Hall _ _ H)
             | H : is_Some (?l !! ?i) ∧ _ |- _ =>
                 destruct H as [[st Hst] Hne]; pose proof (Hall _ _ Hst); congruence
             end. }
  rewrite renderEffects_no_socket by done. rewrite app_nil_r. done.
Qed.

Lemma dead_steps (es : list Event) (s : State) :
  pendingTimeouts s = [] →
  ws s = None →
  (∀ i st, sockets s !! i = Some st → st = CLOSED) →
  socketsOpened (steps es s).2 = []
  ∧ timeoutsSet (steps es s).2 = []
  ∧ framesSent (steps es s).2 = [].
Proof.
  revert s. induction es as [|e es IH]; intros s Hp Hws Hall; [done|].
  cbn [steps].
  destruct (dead_step e s Hp Hws Hall) as ((Hp1 & Hws1 & Hso1) & Ho1 & Ht1 & Hf1).
  destruct (step e s) as [s1 o1]. cbn [fst snd] in *.
  destruct (IH s1 Hp1 Hws1) as (Ho2 & Ht2 & Hf2); [by rewrite Hso1|].
  destruct (steps es s1) as [s2 o2]. cbn [fst snd] in *.
  by rewrite socketsOpened_app, timeoutsSet_app, framesSent_app, Ho1, Ho2, Ht1, Ht2, Hf1, Hf2.
Qed.

(** X6. If the socket constructor throws at the first render, the client
    shows the status [error], has no socket, and stays that way for
    good: whatever events follow, no socket is ever created, no timeout
    is set and no frame is sent. A failed construction is not retried. *)
Theorem construction_failure_is_final (saved : option (list string)) (es : list Event) :
  let s := (mount (init saved false)).1 in
  connectionStatus s = error
  ∧ sockets s = []
  ∧ socketsOpened (mount (init saved false)).2 = []
  ∧ socketsOpened (steps es s).2 = []
  ∧ timeoutsSet (steps es s).2 = []
  ∧ framesSent (steps es s).2 = [].
Proof.
  cbv zeta. repeat split; try done.
  all: apply (dead_steps es (mount (init saved false)).1); try done.
  all: intros i st; by destruct i.
Qed.

Lemma unmount_closed_client (s : State) :
  mounted s = true →
  (∀ t, t ∈ pendingTimeouts s → reconnectTimeoutRef s = Some t) →
  (∀ i st, sockets s !! i = Some st → st = CLOSED) →
  pendingTimeouts (step EvUnmount s).1 = []
  ∧ ws (step EvUnmount s).1 = None
  ∧ sockets (step EvUnmount s).1 = sockets s
  ∧ socketsOpened (step EvUnmount s).2 = []
  ∧ timeoutsSet (step EvUnmount s).2 = []
  ∧ framesSent (step EvUnmount s).2 = []
  ∧ (∀ t, reconnectTimeoutRef s = Some t → ClearTimeout t ∈ (step EvUnmount s).2).
Proof.
  intros Hm Htr Hall. rewrite step_eq. cbn [fst snd]. proj.
  rewrite socketsOpened_app, timeoutsSet_app, framesSent_app.
  destruct (renderEffects_quiet (state_of (dispatch EvUnmount s))) as (-> & -> & _).
  rewrite !app_nil_r.
  assert (ws (state_of (dispatch EvUnmount s)) = None
          ∧ pendingTimeouts (state_of (dispatch EvUnmount s)) = []
          ∧ sockets (state_of (dispatch EvUnmount s)) = sockets s
          ∧ socketsOpened (effects_of (dispatch EvUnmount s)) = []
          ∧ timeoutsSet (effects_of (dispatch EvUnmount s)) = []
          ∧ framesSent (effects_of (dispatch EvUnmount s)) = []
          ∧ (∀ t, reconnectTimeoutRef s = Some t →
                  ClearTimeout t ∈ effects_of (dispatch EvUnmount s)))
    as (H1 & H2 & H3 & H4 & H5 & H6 & H7).
  { unfold dispatch. unfold_hook. unfold_m. destruct s. cbn in *. subst.
    destruct reconnectTimeoutRef0 as [t|], ws0 as [id|]; cbn.
    all: try (destruct (sockets0 !! id) as [st|] eqn:Hst;
              [pose proof (Hall _ _ Hst); subst st|]).
    all: crunch.
    all: repeat split; try done.
    all: try (by apply filter_tracked).
    all: try (intros t' Ht'; simplify_eq; set_solver).
    all: destruct pendingTimeouts0 as [|x l]; [done|].
    all: by specialize (Htr x ltac:(set_solver)). }
  rewrite renderEffects_no_socket by done. rewrite app_nil_r.
  repeat split; try done.
  intros t Ht. apply elem_of_app. left. by apply H7.
Qed.

(** X7. Unmounting while a reconnect is waiting cancels it for good: take a
    client at any point of its life at which a reconnect timeout is
    pending. The unmount clears that timeout, and afterwards, whatever
    events follow (the timeout's own firing included), no socket is
    created, no timeout is set and no frame is sent. *)
Theorem shutdown_during_backoff_is_final (saved : option (list string))
    (before after : list Event) :
  Forall (λ e, e ≠ EvUnmount) before →
  pendingTimeouts (session saved before).1 ≠ [] →
  let s := (session saved before).1 in
  (∃ t, pendingTimeouts s = [t] ∧ ClearTimeout t ∈ (step EvUnmount s).2)
  ∧ pendingTimeouts (step EvUnmount s).1 = []
  ∧ socketsOpened (step EvUnmount s).2 = []
  ∧ socketsOpened (steps after (step EvUnmount s).1).2 = []
  ∧ timeoutsSet (steps after (step EvUnmount s).1).2 = []
  ∧ framesSent (steps after (step EvUnmount s).1).2 = [].
Proof.
  intros Hbefore Hpending s.
  destruct (session_oneConnection saved before Hbefore) as (Hm & Htr & Hpend & _).
  pose proof (session_pending_length saved before Hbefore) as Hlen.
  fold s in Hm, Htr, Hpend, Hlen, Hpending.
  specialize (Hpend Hpending).
  destruct (unmount_closed_client s Hm Htr Hpend) as (Hp & Hws & Hso & Ho & Ht & Hf & Hclr).
  destruct (dead_steps after (step EvUnmount s).1 Hp Hws) as (Ho2 & Ht2 & Hf2);
    [by rewrite Hso|].
  repeat split; try done.
  destruct (pendingTimeouts s) as [|t [|t' l]] eqn:E; [done| |cbn in Hlen; lia].
  exists t. split; [done|]. apply Hclr. apply Htr. set_solver.
Qed.

Lemma shutdown_during_backoff_is_final_witness :
  let before := [EvOpen 0%nat; EvClose 0 1006 ""] in
  let after := [EvTimeout 1; EvClose 0 1006 ""; EvHeartbeat "2024-01-01T10:00:30.000Z";
                EvSubscribe ["AAPL"]] in
  let s := (session None before).1 in
  (∃ t, pendingTimeouts s = [t] ∧ ClearTimeout t ∈ (step EvUnmount s).2)
  ∧ pendingTimeouts (step EvUnmount s).1 = []
  ∧ socketsOpened (step EvUnmount s).2 = []
  ∧ socketsOpened (steps after (step EvUnmount s).1).2 = []
  ∧ timeoutsSet (steps after (step EvUnmount s).1).2 = []
  ∧ framesSent (steps after (step EvUnmount s).1).2 = [].
Proof.
  apply (shutdown_during_backoff_is_final None [EvOpen 0%nat; EvClose 0 1006 ""]
           [EvTimeout 1; EvClose 0 1006 ""; EvHeartbeat "2024-01-01T10:00:30.000Z";
            EvSubscribe ["AAPL"]]).
  - repeat (constructor; [discriminate|]). constructor.
  - discriminate.
Defined.

Lemma silent_step (e : Event) (s : State) :
  pendingTimeouts s = [] →
  mounted s = false →
  ws s = None →
  cleanClose e →
  (pendingTimeouts (step e s).1 = []
   ∧ mounted (step e s).1 = false
   ∧ ws (step e s).1 = None)
  ∧ framesSent (step e s).2 = []
  ∧ socketsOpened (step e s).2 = [].
Proof.
  intros Hp Hm Hws Hc.
  destruct (quiet_step e s Hp Hm Hc) as (Hp1 & Hm1 & Ho1 & _).
  assert (ws (state_of (dispatch e s)) = None
          ∧ framesSent (effects_of (dispatch e s)) = []) as [H1 H2].
  { destruct e; unfold dispatch; unfold_hook; unfold_m; destruct s.
    all: crunch.
    all: match goal with H : _ ∈ [] |- _ => by apply not_elem_of_nil in H end. }
  rewrite step_eq in *. cbn [fst snd] in *.
  rewrite framesSent_app, renderEffects_no_socket by done.
  rewrite app_nil_r. done.
Qed.

Lemma silent_steps (es : list Event) (s : State) :
  pendingTimeouts s = [] →
  mounted s = false →
  ws s = None →
  Forall cleanClose es →
  framesSent (steps es s).2 = [] ∧ socketsOpened (steps es s).2 = [].
Proof.
  intros Hp Hm Hws Hall. revert s Hp Hm Hws.
  induction Hall as [|e es He Hes IH]; intros s Hp Hm Hws; [done|].
  cbn [steps].
  destruct (silent_step e s Hp Hm Hws He) as ((Hp1 & Hm1 & Hws1) & Hf1 & Ho1).
  destruct (step e s) as [s1 o1]. cbn [fst snd] in *.
  destruct (IH s1 Hp1 Hm1 Hws1) as (Hf2 & Ho2).
  destruct (steps es s1) as [s2 o2]. cbn [fst snd] in *.
  by rewrite framesSent_app, socketsOpened_app, Hf1, Hf2, Ho1, Ho2.
Qed.

Lemma unmount_silences (s : State) :
  mounted s = true →
  (∀ t, t ∈ pendingTimeouts s → reconnectTimeoutRef s = Some t) →
  (pendingTimeouts (step EvUnmount s).1 = []
   ∧ mounted (step EvUnmount s).1 = false
   ∧ ws (step EvUnmount s).1 = None)
  ∧ framesSent (step EvUnmount s).2 = []
  ∧ ClearInterval ∈ (step EvUnmount s).2.
Proof.
  intros Hm Htr. rewrite step_eq. cbn [fst snd]. proj.
  rewrite framesSent_app.
  assert ((pendingTimeouts (state_of (dispatch EvUnmount s)) = []
           ∧ mounted (state_of (dispatch EvUnmount s)) = false
           ∧ ws (state_of (dispatch EvUnmount s)) = None)
          ∧ framesSent (effects_of (dispatch EvUnmount s)) = []
          ∧ ClearInterval ∈ effects_of (dispatch EvUnmount s)) as (H1 & H2 & H3).
  { unfold dispatch. unfold_hook. unfold_m. destruct s. cbn in *. subst.
    destruct reconnectTimeoutRef0 as [t|]; crunch.
    all: repeat split; try done.
    all: try (by apply filter_tracked).
    all: try set_solver.
    all: destruct pendingTimeouts0 as [|x l]; [done|].
    all: by specialize (Htr x ltac:(set_solver)). }
  destruct H1 as (Hp & Hm' & Hws).
  rewrite renderEffects_no_socket by done. rewrite app_nil_r.
  repeat split; try done. apply elem_of_app. by left.
Qed.

(** X8. After the unmount nothing is sent any more: take a client at any
    point of its life. The unmount sends no frame, stops the heartbeat
    interval and drops the current socket; and as long as no socket
    closes abnormally afterwards, no later event (a direct
    [subscribe] or [unsubscribe] call, a watchlist operation, a stray
    heartbeat tick) puts a frame on the wire. *)
Theorem nothing_sent_after_shutdown (saved : option (list string))
    (before after : list Event) :
  Forall (λ e, e ≠ EvUnmount) before →
  Forall cleanClose after →
  let s := (session saved before).1 in
  framesSent (step EvUnmount s).2 = []
  ∧ ClearInterval ∈ (step EvUnmount s).2
  ∧ ws (step EvUnmount s).1 = None
  ∧ framesSent (steps after (step EvUnmount s).1).2 = [].
Proof.
  intros Hbefore Hafter s.
  destruct (session_oneConnection saved before Hbefore) as (Hm & Htr & _).
  destruct (unmount_silences s Hm Htr) as ((Hp & Hm' & Hws) & Hf & Hci).
  destruct (silent_steps after _ Hp Hm' Hws Hafter) as [Hf2 _].
  done.
Qed.

Lemma nothing_sent_after_shutdown_witness :
  let before := [EvOpen 0%nat] in
  let after := [EvSubscribe ["AAPL"]; EvAddToWatchlist ["shop"];
                EvHeartbeat "2024-01-01T10:00:30.000Z"; EvClose 0 1000 "Manual disconnect";
                EvUnsubscribe ["AAPL"]] in
  let s := (session None before).1 in
  framesSent (step EvUnmount s).2 = []
  ∧ ClearInterval ∈ (step EvUnmount s).2
  ∧ ws (step EvUnmount s).1 = None
  ∧ framesSent (steps after (step EvUnmount s).1).2 = [].
Proof.
  apply (nothing_sent_after_shutdown None [EvOpen 0%nat]
           [EvSubscribe ["AAPL"]; EvAddToWatchlist ["shop"];
            EvHeartbeat "2024-01-01T10:00:30.000Z"; EvClose 0 1000 "Manual disconnect";
            EvUnsubscribe ["AAPL"]]).
  - repeat (constructor; [discriminate|]). constructor.
  - repeat constructor.
Defined.

(** X9. An [error] event by itself only changes the displayed status: it
    closes nothing, schedules no reconnect, opens no socket and leaves
    the sockets, the refs, the attempt counter and [isConnected] as they
    were. On a socket that is not closed the status becomes [error]. *)
Theorem error_event_only_sets_status (s : State) (id : nat) (st : ReadyState) :
  readyStateOf id s = Some st →
  st ≠ CLOSED →
  connectionView (step (EvError id) s).1 = connectionView s
  ∧ reconnectAttempts (step (EvError id) s).1 = reconnectAttempts s
  ∧ connectionStatus (step (EvError id) s).1 = error
  ∧ closeCalls (step (EvError id) s).2 = []
  ∧ timeoutsSet (step (EvError id) s).2 = []
  ∧ socketsOpened (step (EvError id) s).2 = [].
Proof.
  intros Hst Hne. rewrite step_eq. cbn [fst snd]. unfold connectionView. proj.
  rewrite closeCalls_app, timeoutsSet_app, socketsOpened_app.
  destruct (renderEffects_quiet (state_of (dispatch (EvError id) s))) as (-> & -> & ->).
  rewrite !app_nil_r.
  assert (dispatch (EvError id) s = onerror s) as ->.
  { unfold dispatch. unfold_m. rewrite Hst.
    rewrite bool_decide_true by (split; [by eexists|congruence]).
    by destruct (onerror s) as [[??]?]. }
  unfold_hook. unfold_m. destruct s. crunch.
Qed.

Lemma error_event_only_sets_status_witness :
  connectionView (step (EvError 0) connectedClient).1 = connectionView connectedClient
  ∧ reconnectAttempts (step (EvError 0) connectedClient).1 = reconnectAttempts connectedClient
  ∧ connectionStatus (step (EvError 0) connectedClient).1 = error
  ∧ closeCalls (step (EvError 0) connectedClient).2 = []
  ∧ timeoutsSet (step (EvError 0) connectedClient).2 = []
  ∧ socketsOpened (step (EvError 0) connectedClient).2 = [].
Proof.
  apply (error_event_only_sets_status connectedClient 0%nat OPEN); [reflexivity|discriminate].
Defined.

(** ** The watchlist operations *)

Lemma upper_ascii_idempotent (c : Ascii.ascii) :
  JS.upper_ascii (JS.upper_ascii c) = JS.upper_ascii c.
Proof. by destruct c as [[] [] [] [] [] [] [] []]. Qed.

Lemma toUpperCase_idempotent (x : string) :
  JS.toUpperCase (JS.toUpperCase x) = JS.toUpperCase x.
Proof.
  induction x as [|c x IH]; [done|]. cbn. by rewrite upper_ascii_idempotent, IH.
Qed.

Lemma toUpperCase_fmap_idempotent (l : list string) :
  JS.toUpperCase <$> (JS.toUpperCase <$> l) = JS.toUpperCase <$> l.
Proof.
  rewrite <- list_fmap_compose. apply list_fmap_ext. intros i x _. cbn.
  apply toUpperCase_idempotent.
Qed.

Lemma elem_of_newSymbolsFor (wl symbols : list string) (y : string) :
  y ∈ newSymbolsFor wl symbols ↔ y ∈ JS.toUpperCase <$> symbols ∧ y ∉ wl.
Proof.
  unfold newSymbolsFor, JS.includes. rewrite list_elem_of_filter.
  rewrite negb_True, bool_decide_spec. tauto.
Qed.

Lemma newSymbolsFor_normalised (wl symbols : list string) :
  JS.toUpperCase <$> newSymbolsFor wl symbols = newSymbolsFor wl symbols.
Proof.
  unfold newSymbolsFor.
  induction symbols as [|x l IH]; [done|]. cbn [fmap list_fmap].
  rewrite filter_cons. destruct (decide _); [|done].
  cbn [fmap list_fmap]. rewrite toUpperCase_idempotent. f_equal. apply IH.
Qed.

Lemma add_watchlist_state (s : State) (symbols : list string) :
  watchlist (step (EvAddToWatchlist symbols) s).1
  = watchlist s ++ newSymbolsFor (watchlist s) symbols.
Proof.
  rewrite step_eq. cbn [fst]. proj.
  unfold dispatch, addToWatchlist, setWatchlist, subscribe. unfold_m.
  fold (newSymbolsFor (watchlist s) symbols).
  destruct (newSymbolsFor (watchlist s) symbols) as [|y new] eqn:E.
  - cbn [length]. rewrite bool_decide_false by lia. cbn. by rewrite app_nil_r.
  - cbn [length]. rewrite bool_decide_true by lia.
    destruct (isConnected s); [rewrite sendMessage_eq|]; done.
Qed.

(** X10. [addToWatchlist] only appends: the old entries stay, in order, at the
    front; what is appended is exactly the upper-cased symbols that were
    not in the watchlist; so afterwards every requested symbol is in the
    watchlist in upper case. *)
Theorem addToWatchlist_appends_the_new (s : State) (symbols : list string) :
  let wl' := watchlist (step (EvAddToWatchlist symbols) s).1 in
  (∃ new, wl' = watchlist s ++ new
          ∧ ∀ y, y ∈ new ↔ y ∈ JS.toUpperCase <$> symbols ∧ y ∉ watchlist s)
  ∧ (∀ x, x ∈ symbols → JS.toUpperCase x ∈ wl').
Proof.
  cbv zeta. rewrite add_watchlist_state. split.
  - exists (newSymbolsFor (watchlist s) symbols). split; [done|].
    apply elem_of_newSymbolsFor.
  - intros x Hx. apply elem_of_app.
    destruct (decide (JS.toUpperCase x ∈ watchlist s)) as [Hin|Hnin]; [by left|].
    right. apply elem_of_newSymbolsFor. split; [|done].
    by apply list_elem_of_fmap_2.
Qed.

Lemma add_watchlist_dispatch (s : State) (symbols : list string) :
  newSymbolsFor (watchlist s) symbols ≠ [] →
  dispatch (EvAddToWatchlist symbols) s =
  (Normal tt,
   set_needsRender true
     (set_watchlist (watchlist s ++ newSymbolsFor (watchlist s) symbols) s),
   if isConnected s
   then sendEffects (Subscribe (JS.toUpperCase <$> newSymbolsFor (watchlist s) symbols)) s
   else []).
Proof.
  intros Hnew.
  unfold dispatch, addToWatchlist, setWatchlist, subscribe. unfold_m.
  fold (newSymbolsFor (watchlist s) symbols).
  destruct (newSymbolsFor (watchlist s) symbols) as [|y new] eqn:E; [done|].
  cbn [length]. rewrite bool_decide_true by lia.
  destruct (isConnected s); [rewrite sendMessage_eq|]; cbn; done.
Qed.

(** X11. Adding new symbols on a connected client subscribes twice:
    [addToWatchlist] sends one subscribe frame with exactly the new
    symbols, and the render caused by the change of the watchlist sends
    a second one with the whole new watchlist. *)
Theorem add_while_connected_sends_new_then_all (s : State) (id : nat)
    (symbols : list string) :
  mounted s = true →
  ws s = Some id →
  readyStateOf id s = Some OPEN →
  isConnected s = true →
  newSymbolsFor (watchlist s) symbols ≠ [] →
  framesSent (step (EvAddToWatchlist symbols) s).2
  = [Subscribe (newSymbolsFor (watchlist s) symbols);
     Subscribe (JS.toUpperCase <$> (watchlist s ++ newSymbolsFor (watchlist s) symbols))].
Proof.
  intros Hm Hws Hst Hc Hnew. rewrite step_eq, add_watchlist_dispatch by done.
  unfold state_of, effects_of. cbn [fst snd].
  unfold renderEffects, sendEffects, currentIsOpen. proj.
  rewrite Hm, Hc, Hws, Hst, newSymbolsFor_normalised.
  unfold readyStateOf in *. proj. rewrite Hst.
  rewrite !(bool_decide_true (Some OPEN = Some OPEN)) by done. cbn [andb].
  rewrite bool_decide_true; [done|].
  rewrite length_app.
  destruct (newSymbolsFor (watchlist s) symbols); [done|cbn; lia].
Qed.

Lemma add_while_connected_sends_new_then_all_witness :
  framesSent (step (EvAddToWatchlist ["shop"; "aapl"]) connectedClient).2
  = [Subscribe (newSymbolsFor (watchlist connectedClient) ["shop"; "aapl"]);
     Subscribe (JS.toUpperCase <$> (watchlist connectedClient
                                    ++ newSymbolsFor (watchlist connectedClient) ["shop"; "aapl"]))].
Proof.
  apply (add_while_connected_sends_new_then_all connectedClient 0%nat ["shop"; "aapl"]);
    [reflexivity | reflexivity | reflexivity | reflexivity | vm_compute; discriminate].
Defined.

(** On a mounted provider that is not connected the operation sends
    nothing and logs nothing, and the render that follows does not
    resubscribe. *)
Lemma add_disconnected_step (s : State) (symbols : list string) :
  mounted s = true →
  isConnected s = false →
  (step (EvAddToWatchlist symbols) s).2 = []
  ∧ watchlist (step (EvAddToWatchlist symbols) s).1
    = watchlist s ++ newSymbolsFor (watchlist s) symbols
  ∧ connectionView (step (EvAddToWatchlist symbols) s).1 = connectionView s.
Proof.
  intros _ Hc. split; [|split; [apply add_watchlist_state|]].
  - rewrite step_eq. cbn [snd].
    destruct (newSymbolsFor (watchlist s) symbols) as [|y l] eqn:E.
    + unfold dispatch, addToWatchlist. unfold_m.
      fold (newSymbolsFor (watchlist s) symbols). rewrite E. cbn [length].
      rewrite bool_decide_false by lia. cbn.
      unfold renderEffects. rewrite Hc. by rewrite !andb_false_r.
    + rewrite add_watchlist_dispatch by (rewrite E; done).
      unfold state_of, effects_of. cbn [fst snd]. rewrite Hc.
      unfold renderEffects. proj. rewrite Hc. by rewrite !andb_false_r.
  - rewrite step_eq. cbn [fst]. unfold connectionView. proj.
    change (connectionView (state_of (dispatch (EvAddToWatchlist symbols) s))
            = connectionView s).
    by apply passive_view.
Qed.

(** X12. On a mounted client, at any point of its life at which it is not
    connected, adding symbols only changes the watchlist: no frame is
    sent and no warning is logged; the symbols go out with the watchlist
    at the next open. (After an unmount the operation of the last render
    still sees [isConnected] as it was then; that case is excluded
    here.) *)
Theorem add_while_disconnected_is_local (saved : option (list string))
    (before : list Event) (symbols : list string) :
  Forall (λ e, e ≠ EvUnmount) before →
  isConnected (session saved before).1 = false →
  let s := (session saved before).1 in
  mounted s = true
  ∧ (step (EvAddToWatchlist symbols) s).2 = []
  ∧ watchlist (step (EvAddToWatchlist symbols) s).1
    = watchlist s ++ newSymbolsFor (watchlist s) symbols
  ∧ connectionView (step (EvAddToWatchlist symbols) s).1 = connectionView s.
Proof.
  intros Hes Hc s.
  destruct (session_oneConnection saved before Hes) as (Hm & _).
  split; [done|]. by apply add_disconnected_step.
Qed.

Lemma add_while_disconnected_is_local_witness :
  let s := (session None [EvOpen 0; EvClose 0 1006 ""]).1 in
  mounted s = true
  ∧ (step (EvAddToWatchlist ["shop"]) s).2 = []
  ∧ watchlist (step (EvAddToWatchlist ["shop"]) s).1
    = watchlist s ++ newSymbolsFor (watchlist s) ["shop"]
  ∧ connectionView (step (EvAddToWatchlist ["shop"]) s).1 = connectionView s.
Proof.
  apply (add_while_disconnected_is_local None [EvOpen 0; EvClose 0 1006 ""] ["shop"]).
  - repeat constructor; discriminate.
  - reflexivity.
Defined.

Lemma remove_watchlist_dispatch (s : State) (symbols : list string) :
  dispatch (EvRemoveFromWatchlist symbols) s =
  (Normal tt,
   set_needsRender true
     (set_watchlist
        (filter (λ symbol, negb (JS.includes (JS.toUpperCase <$> symbols) symbol))
           (watchlist s)) s),
   if isConnected s
   then sendEffects (Unsubscribe (JS.toUpperCase <$> symbols)) s
   else []).
Proof.
  unfold dispatch, removeFromWatchlist, setWatchlist, unsubscribe. unfold_m.
  destruct (isConnected s); [rewrite sendMessage_eq|]; cbn; [|done].
  by rewrite toUpperCase_fmap_idempotent.
Qed.

Lemma remove_watchlist_state (s : State) (symbols : list string) :
  watchlist (step (EvRemoveFromWatchlist symbols) s).1
  = filter (λ symbol, negb (JS.includes (JS.toUpperCase <$> symbols) symbol)) (watchlist s).
Proof. rewrite step_eq, remove_watchlist_dispatch. done. Qed.

(** X13. [removeFromWatchlist] keeps exactly the entries that are not one of
    the upper-cased symbols, in their order, so afterwards none of the
    upper-cased symbols is in the watchlist. The comparison is exact: an
    entry that is not in upper case (one loaded from storage) is not
    removed by naming it. *)
Theorem removeFromWatchlist_filters (s : State) (symbols : list string) :
  let wl' := watchlist (step (EvRemoveFromWatchlist symbols) s).1 in
  (∀ y, y ∈ wl' ↔ y ∈ watchlist s ∧ y ∉ JS.toUpperCase <$> symbols)
  ∧ wl' `sublist_of` watchlist s
  ∧ (∀ x, x ∈ symbols → JS.toUpperCase x ∉ wl')
  ∧ (NoDup (watchlist s) → NoDup wl').
Proof.
  cbv zeta. rewrite remove_watchlist_state.
  assert (∀ y, y ∈ filter (λ symbol, negb (JS.includes (JS.toUpperCase <$> symbols) symbol))
                     (watchlist s)
               ↔ y ∈ watchlist s ∧ y ∉ JS.toUpperCase <$> symbols) as Hin.
  { intros y. rewrite list_elem_of_filter. unfold JS.includes.
    rewrite negb_True, bool_decide_spec. tauto. }
  repeat split.
  - by apply Hin.
  - by apply Hin.
  - intros [? ?]. by apply Hin.
  - apply sublist_filter.
  - intros x Hx Hy. apply Hin in Hy as [_ Hy]. apply Hy. by apply list_elem_of_fmap_2.
  - apply NoDup_filter.
Qed.

Lemma lower_case_entry_is_not_removed :
  watchlist (session (Some ["aapl"]) [EvRemoveFromWatchlist ["aapl"]]).1 = ["aapl"].
Proof. vm_compute; reflexivity. Qed.

Lemma filter_keep_all {A} (P : A → Prop) `{∀ x, Decision (P x)} (l : list A) :
  (∀ x, x ∈ l → P x) → filter P l = l.
Proof.
  induction l as [|x l IH]; intros Hall; [done|].
  rewrite filter_cons_True by (apply Hall; set_solver).
  f_equal. apply IH. intros y Hy. apply Hall. set_solver.
Qed.

Lemma filter_drop_all {A} (P : A → Prop) `{∀ x, Decision (P x)} (l : list A) :
  (∀ x, x ∈ l → ¬ P x) → filter P l = [].
Proof.
  induction l as [|x l IH]; intros Hall; [done|].
  rewrite filter_cons_False by (apply Hall; set_solver).
  apply IH. intros y Hy. apply Hall. set_solver.
Qed.

(** X14. Adding symbols of which none was in the watchlist and then removing
    the same symbols gives back the watchlist as it was. *)
Theorem add_then_remove_restores_watchlist (s : State) (symbols : list string) :
  Forall (λ x, JS.toUpperCase x ∉ watchlist s) symbols →
  watchlist (steps [EvAddToWatchlist symbols; EvRemoveFromWatchlist symbols] s).1
  = watchlist s.
Proof.
  intros Hfresh. rewrite Forall_forall in Hfresh. cbn [steps].
  pose proof (add_watchlist_state s symbols) as Hadd.
  destruct (step (EvAddToWatchlist symbols) s) as [s1 o1]. cbn [fst] in Hadd.
  pose proof (remove_watchlist_state s1 symbols) as Hrem.
  destruct (step (EvRemoveFromWatchlist symbols) s1) as [s2 o2]. cbn [fst] in *.
  rewrite Hrem, Hadd, filter_app.
  rewrite filter_keep_all, filter_drop_all; [by rewrite app_nil_r| |].
  - intros y Hy. apply elem_of_newSymbolsFor in Hy as [Hy _].
    unfold JS.includes. rewrite negb_True, bool_decide_spec. tauto.
  - intros y Hy. unfold JS.includes. rewrite negb_True, bool_decide_spec.
    intros Hin. apply list_elem_of_fmap in Hin as (x & -> & Hx). by apply (Hfresh x).
Qed.

Lemma add_then_remove_restores_watchlist_witness :
  watchlist (steps [EvAddToWatchlist ["shop"; "nflx"]; EvRemoveFromWatchlist ["shop"; "nflx"]]
               connectedClient).1
  = watchlist connectedClient.
Proof.
  apply (add_then_remove_restores_watchlist connectedClient ["shop"; "nflx"]).
  apply (bool_decide_unpack _). vm_compute. exact I.
Defined.

(** X15. [clearWatchlist] empties the watchlist. On a connected client it
    sends one unsubscribe frame with the whole (upper-cased) old
    watchlist and nothing else; when not connected it sends nothing. *)
Theorem clearWatchlist_unsubscribes_all (s : State) :
  watchlist (step EvClearWatchlist s).1 = []
  ∧ framesSent (step EvClearWatchlist s).2
    = if isConnected s && currentIsOpen s
      then [Unsubscribe (JS.toUpperCase <$> watchlist s)]
      else [].
Proof.
  rewrite step_eq.
  assert (dispatch EvClearWatchlist s =
          (Normal tt, set_needsRender true (set_watchlist [] s),
           if isConnected s then sendEffects (Unsubscribe (JS.toUpperCase <$> watchlist s)) s
           else [])) as ->.
  { unfold dispatch, clearWatchlist, setWatchlist, unsubscribe. unfold_m.
    destruct (isConnected s); [rewrite sendMessage_eq|]; cbn; [|done].
    by rewrite app_nil_r. }
  unfold state_of, effects_of. cbn [fst snd]. split; [done|].
  rewrite framesSent_app.
  assert (renderEffects (set_needsRender true (set_watchlist [] s)) = []) as ->.
  { unfold renderEffects. proj. cbn [length].
    rewrite bool_decide_false by lia. by rewrite andb_false_r. }
  rewrite app_nil_r. unfold sendEffects.
  destruct (isConnected s), (ws s) as [id|] eqn:Hws, (currentIsOpen s) eqn:Hopen; try done.
  unfold currentIsOpen in Hopen. by rewrite Hws in Hopen.
Qed.

(** ** What goes on the wire *)

Lemma sendEffects_normalised (m : OutMessage) (s : State) :
  normalisedFrame m → Forall normalisedFrame (framesSent (sendEffects m s)).
Proof.
  intros Hm. unfold sendEffects.
  destruct (ws s), (currentIsOpen s); cbn; by repeat constructor.
Qed.

Lemma dispatch_frames_normalised (e : Event) (s : State) :
  Forall normalisedFrame (framesSent (effects_of (dispatch e s))).
Proof.
  destruct e.
  all: try (unfold dispatch; unfold_hook; unfold_m; destruct s; crunch;
            by repeat constructor).
  - (* subscribe *)
    unfold dispatch, subscribe. rewrite sendMessage_eq.
    apply sendEffects_normalised. apply toUpperCase_fmap_idempotent.
  - (* unsubscribe *)
    unfold dispatch, unsubscribe. rewrite sendMessage_eq.
    apply sendEffects_normalised. apply toUpperCase_fmap_idempotent.
  - (* addToWatchlist *)
    destruct (decide (newSymbolsFor (watchlist s) symbols = [])) as [E|E].
    + unfold dispatch, addToWatchlist. unfold_m.
      fold (newSymbolsFor (watchlist s) symbols). rewrite E. cbn [length].
      rewrite bool_decide_false by lia. by constructor.
    + rewrite add_watchlist_dispatch by done. unfold effects_of. cbn [snd].
      destruct (isConnected s); [|by constructor].
      apply sendEffects_normalised. apply toUpperCase_fmap_idempotent.
  - (* removeFromWatchlist *)
    rewrite remove_watchlist_dispatch. unfold effects_of. cbn [snd].
    destruct (isConnected s); [|by constructor].
    apply sendEffects_normalised. apply toUpperCase_fmap_idempotent.
  - (* clearWatchlist *)
    unfold dispatch, clearWatchlist, setWatchlist, unsubscribe. unfold_m.
    destruct (isConnected s); [rewrite sendMessage_eq|]; cbn; [|by constructor].
    rewrite app_nil_r. apply sendEffects_normalised. apply toUpperCase_fmap_idempotent.
Qed.

(** X16. Every subscribe or unsubscribe frame the client ever puts on the
    wire carries upper-case symbols only, whatever case the caller, the
    watchlist or the storage used. *)
Theorem frames_carry_upper_case_symbols (saved : option (list string)) (es : list Event) :
  Forall normalisedFrame (framesSent (session saved es).2).
Proof.
  assert (∀ e s, Forall normalisedFrame (framesSent (step e s).2)) as Hstep.
  { intros e s. rewrite step_eq. cbn [snd]. rewrite framesSent_app.
    apply Forall_app. split; [apply dispatch_frames_normalised|].
    unfold renderEffects. destruct (_ && _); [|by constructor].
    apply sendEffects_normalised. apply toUpperCase_fmap_idempotent. }
  assert (∀ es s, Forall normalisedFrame (framesSent (steps es s).2)) as Hsteps.
  { clear es. induction es as [|e es IH]; intros s; [by constructor|].
    cbn [steps]. specialize (Hstep e s). destruct (step e s) as [s1 o1].
    specialize (IH s1). destruct (steps es s1) as [s2 o2]. cbn [snd] in *.
    rewrite framesSent_app. by apply Forall_app. }
  unfold session.
  assert (framesSent (mount (init saved true)).2 = []) as H0 by done.
  destruct (mount (init saved true)) as [s0 o0]. cbn [snd] in H0.
  specialize (Hsteps es s0). destruct (steps es s0) as [s1 o1]. cbn [snd] in *.
  rewrite framesSent_app, H0. done.
Qed.

(** ** Heartbeat and last message, edge cases *)

(** X17. A heartbeat tick on a client whose current socket is not open (or
    that has none) does nothing at all: no ping, and, unlike a direct
    [subscribe], not even a warning. *)
Theorem heartbeat_is_silent_unless_open (s : State) (now : string) :
  currentIsOpen s = false →
  needsRender s = false →
  step (EvHeartbeat now) s = (s, []).
Proof.
  intros Hopen Hnr. rewrite step_eq. unfold dispatch, heartbeat. unfold_m.
  destruct (mounted s); cbn; rewrite ?Hopen; cbn.
  all: rewrite set_needsRender_id by done.
  all: unfold renderEffects; by rewrite Hnr.
Qed.

Lemma heartbeat_is_silent_unless_open_witness :
  let s := (mount (init None true)).1 in
  step (EvHeartbeat "2024-01-01T10:00:30.000Z") s = (s, []).
Proof.
  apply (heartbeat_is_silent_unless_open (mount (init None true)).1); reflexivity.
Defined.

(** X18. [lastMessage] is the last frame that parsed, of whatever type: a
    parsed object replaces it, a frame that parses to [null] clears it,
    and a frame that does not parse leaves it as it was. *)
Theorem lastMessage_tracks_parsed_frames (s : State) (id : nat) (m : WebSocketMessage.t) :
  readyStateOf id s = Some OPEN →
  lastMessage (step (EvMessage id (ParsedObject m)) s).1 = Some m
  ∧ lastMessage (step (EvMessage id ParsedNull) s).1 = None
  ∧ lastMessage (step (EvMessage id ParseFails) s).1 = lastMessage s.
Proof.
  intros Hst. rewrite !step_eq. cbn [fst]. proj.
  unfold dispatch. unfold_m. rewrite Hst. rewrite bool_decide_true by done.
  unfold_hook. unfold_m. destruct s. cbn. repeat split.
  - destruct (isMarketData m) as [[??]|]; done.
  - by destruct lastMessage0.
Qed.

Lemma lastMessage_tracks_parsed_frames_witness :
  let m := WebSocketMessage.mk "pong" None None None "2024-01-01T10:00:30.000Z" in
  lastMessage (step (EvMessage 0 (ParsedObject m)) connectedClient).1 = Some m
  ∧ lastMessage (step (EvMessage 0 ParsedNull) connectedClient).1 = None
  ∧ lastMessage (step (EvMessage 0 ParseFails) connectedClient).1 = lastMessage connectedClient.
Proof.
  apply (lastMessage_tracks_parsed_frames connectedClient 0%nat). reflexivity.
Defined.

(** ** Removing on a connected client *)

(** X19. Removing symbols on a connected client always sends an unsubscribe
    frame for the upper-cased symbols, whether or not they were in the
    watchlist, and the render that follows sends what is left of the
    watchlist again (nothing when the watchlist became empty). *)
Theorem remove_while_connected_unsubscribes_then_resubscribes (s : State) (id : nat)
    (symbols : list string) :
  mounted s = true →
  ws s = Some id →
  readyStateOf id s = Some OPEN →
  isConnected s = true →
  let wl' := watchlist (step (EvRemoveFromWatchlist symbols) s).1 in
  framesSent (step (EvRemoveFromWatchlist symbols) s).2
  = Unsubscribe (JS.toUpperCase <$> symbols)
    :: match wl' with
       | [] => []
       | _ => [Subscribe (JS.toUpperCase <$> wl')]
       end.
Proof.
  intros Hm Hws Hst Hc. cbv zeta. rewrite remove_watchlist_state.
  rewrite step_eq, remove_watchlist_dispatch.
  unfold state_of, effects_of. cbn [fst snd].
  unfold renderEffects, sendEffects, currentIsOpen, readyStateOf in *. proj.
  rewrite Hm, Hc, Hws, Hst.
  rewrite !(bool_decide_true (Some OPEN = Some OPEN)) by done. cbn [andb].
  destruct (filter _ (watchlist s)) as [|y l]; cbn [length].
  - by rewrite bool_decide_false by lia.
  - by rewrite bool_decide_true by lia.
Qed.

Lemma remove_while_connected_unsubscribes_then_resubscribes_witness :
  let wl' := watchlist (step (EvRemoveFromWatchlist ["zzz"]) connectedClient).1 in
  framesSent (step (EvRemoveFromWatchlist ["zzz"]) connectedClient).2
  = Unsubscribe (JS.toUpperCase <$> ["zzz"])
    :: match wl' with
       | [] => []
       | _ => [Subscribe (JS.toUpperCase <$> wl')]
       end.
Proof.
  apply (remove_while_connected_unsubscribes_then_resubscribes connectedClient 0%nat ["zzz"]);
    reflexivity.
Defined.

(** X20. When a connecting socket opens, the client shows itself connected
    and the attempt counter starts again from zero, so the next failure
    is retried after 2 s whatever happened before. *)
Theorem open_marks_connected_and_resets (s : State) (id : nat) :
  readyStateOf id s = Some CONNECTING →
  isConnected (step (EvOpen id) s).1 = true
  ∧ connectionStatus (step (EvOpen id) s).1 = connected
  ∧ reconnectAttempts (step (EvOpen id) s).1 = 0
  ∧ readyStateOf id (step (EvOpen id) s).1 = Some OPEN
  ∧ timeoutsSet (step (EvClose id 1006 "") (step (EvOpen id) s).1).2 = [2000].
Proof.
  intros Hst.
  assert (id < length (sockets s))%nat as Hlt by (by eapply lookup_lt_Some).
  assert (isConnected (step (EvOpen id) s).1 = true
          ∧ connectionStatus (step (EvOpen id) s).1 = connected
          ∧ reconnectAttempts (step (EvOpen id) s).1 = 0
          ∧ sockets (step (EvOpen id) s).1 = <[id := OPEN]> (sockets s))
    as (H1 & H2 & H3 & H4).
  { rewrite step_eq. cbn [fst]. proj.
    unfold dispatch. unfold_m. rewrite Hst. rewrite bool_decide_true by done.
    unfold_hook. unfold_m. destruct s. crunch. }
  assert (readyStateOf id (step (EvOpen id) s).1 = Some OPEN) as H5.
  { unfold readyStateOf. rewrite H4. by apply list_lookup_insert_eq. }
  repeat split; try done.
  rewrite step_eq. cbn [snd]. rewrite timeoutsSet_app.
  destruct (renderEffects_quiet
              (state_of (dispatch (EvClose id 1006 "") (step (EvOpen id) s).1))) as (-> & _ & _).
  rewrite app_nil_r, (dispatch_close_eq _ _ _ _ OPEN) by done.
  set (s1 := set_sockets _ _).
  destruct (onclose_reconnects 1006 "" s1) as (He & _); [done| |].
  - subst s1. proj. rewrite H3. lia.
  - rewrite He. cbn. subst s1. proj. by rewrite H3.
Qed.

Lemma open_marks_connected_and_resets_witness :
  let s := (session None fiveFailures).1 in
  isConnected (step (EvOpen 5) s).1 = true
  ∧ connectionStatus (step (EvOpen 5) s).1 = connected
  ∧ reconnectAttempts (step (EvOpen 5) s).1 = 0
  ∧ readyStateOf 5 (step (EvOpen 5) s).1 = Some OPEN
  ∧ timeoutsSet (step (EvClose 5 1006 "") (step (EvOpen 5) s).1).2 = [2000].
Proof.
  apply (open_marks_connected_and_resets (session None fiveFailures).1 5%nat). reflexivity.
Defined.

(** * The portfolio page *)

Lemma filter_index_keep {A} (g : nat → nat) (index : nat) (l : list A) :
  (∀ i, g i ≠ index) →
  (filter (λ ip, ip.1 ≠ index) (imap (λ i x, (g i, x)) l)).*2 = l.
Proof.
  revert g. induction l as [|x l IH]; intros g Hg; [done|].
  rewrite imap_cons, filter_cons_True by (cbn; apply Hg).
  cbn [fmap list_fmap snd]. f_equal.
  apply (IH (g ∘ S)). intros i. apply Hg.
Qed.

Lemma filter_index_delete_gen {A} (g : nat → nat) (index n : nat) (l : list A) :
  (∀ i, g i = index ↔ i = n) →
  (filter (λ ip, ip.1 ≠ index) (imap (λ i x, (g i, x)) l)).*2 = delete n l.
Proof.
  revert g n. induction l as [|x l IH]; intros g n Hg; [done|].
  rewrite imap_cons. destruct n as [|n].
  - rewrite filter_cons_False by (cbn; intros Hne; apply Hne; by apply Hg).
    cbn [delete list_delete].
    apply (filter_index_keep (g ∘ S)). intros i Hi. apply Hg in Hi. done.
  - rewrite filter_cons_True by (cbn; intros Hi; apply Hg in Hi; done).
    cbn [fmap list_fmap snd delete list_delete]. f_equal.
    apply (IH (g ∘ S)). intros i. cbn. rewrite Hg. split; [by intros [= ->]|by intros ->].
Qed.

Lemma filter_index_delete {A} (index : nat) (l : list A) :
  (filter (λ ip, ip.1 ≠ index) (imap pair l)).*2 = delete index l.
Proof. by apply (filter_index_delete_gen id). Qed.

Section PortfolioProperties.

Import PortfolioPage.
Context {number : Type} (zero : number) (positive : number → bool).

(** X21. [removePosition] deletes exactly the position at the given index and
    keeps the others in order; an index past the end changes nothing;
    the name, the cash and the dialog are left alone. *)
Theorem removePosition_deletes_one (index : nat) (p : Page (number:=number)) :
  positions (portfolio (removePosition index p)) = delete index (positions (portfolio p))
  ∧ (length (positions (portfolio p)) ≤ index → removePosition index p = p)%nat
  ∧ (index < length (positions (portfolio p)) →
     length (positions (portfolio (removePosition index p)))
     = pred (length (positions (portfolio p))))%nat
  ∧ name (portfolio (removePosition index p)) = name (portfolio p)
  ∧ cash (portfolio (removePosition index p)) = cash (portfolio p)
  ∧ newPosition (removePosition index p) = newPosition p.
Proof.
  unfold removePosition. cbn. rewrite filter_index_delete.
  repeat split.
  - intros Hge. destruct p as [[n l c] np o]. cbn in *. do 2 f_equal.
    rewrite delete_take_drop, take_ge, drop_ge by lia. by rewrite app_nil_r.
  - intros Hlt. rewrite length_delete; [lia|]. by apply lookup_lt_is_Some_2.
Qed.

(** X22. Clicking "Add Position" twice adds at most one position: the first
    click that is accepted clears the form, so the second is refused. *)
Theorem addPosition_twice_adds_once (p : Page (number:=number)) :
  addPosition zero positive (addPosition zero positive p) = addPosition zero positive p.
Proof.
  unfold addPosition at 2 3.
  destruct (JS.truthy _ && _ && _) eqn:E; [|unfold addPosition; by rewrite E].
  unfold addPosition. done.
Qed.

(** X23. A position that was just added is the last one: removing the row at
    the old length gives back the positions as they were (and when the
    form was refused nothing was added and nothing is removed). *)
Theorem add_then_remove_last_position (p : Page (number:=number)) :
  positions (portfolio (removePosition (length (positions (portfolio p)))
                          (addPosition zero positive p)))
  = positions (portfolio p).
Proof.
  unfold removePosition. cbn [portfolio positions]. rewrite filter_index_delete.
  unfold addPosition. destruct (JS.truthy _ && _ && _); cbn [portfolio positions].
  - rewrite delete_take_drop, take_app_length.
    rewrite drop_ge by (rewrite length_app; cbn; lia). by rewrite app_nil_r.
  - rewrite delete_take_drop, take_ge, drop_ge by lia. by rewrite app_nil_r.
Qed.

(** X24. Filling in the dialog and clicking "Add Position": with a non-empty
    symbol and positive shares and cost, the position is appended with
    its symbol in upper case, the form is cleared and the dialog closed;
    with an empty symbol the click changes nothing. *)
Theorem filled_form_adds_upper_cased_position (p : Page (number:=number))
    (sym : string) (n c : number) :
  sym ≠ "" →
  positive n = true →
  positive c = true →
  let filled := changeAvgCost c (changeShares n (changeSymbol sym p)) in
  addPosition zero positive filled
  = mkPage
      (mkPortfolio (name (portfolio p))
         (positions (portfolio p) ++ [mkPosition (JS.toUpperCase sym) n c])
         (cash (portfolio p)))
      (mkPosition "" zero zero) false
  ∧ let blank := changeAvgCost c (changeShares n (changeSymbol "" p)) in
    addPosition zero positive blank = blank.
Proof.
  intros Hsym Hn Hc. cbv zeta. split.
  - unfold addPosition, changeAvgCost, changeShares, changeSymbol. cbn.
    rewrite Hn, Hc, toUpperCase_idempotent.
    destruct sym as [|a sym]; [done|]. done.
  - unfold addPosition, changeAvgCost, changeShares, changeSymbol. cbn. done.
Qed.

(** X25. The pie chart has one slice per analysed position, in order, named
    by the symbol and sized by the weight; every slice gets a colour of
    [COLORS] (the index never leaves the array), and the colours repeat
    with period six. Without an analysis the chart is empty. *)
Theorem pieChartData_colours {A : Type} (pos_symbol : A → string)
    (pos_weight : A → number) (l : list A) :
  length (pieChartData pos_symbol pos_weight (Some l)) = length l
  ∧ (∀ i pos, l !! i = Some pos →
       ∃ colour, pieChartData pos_symbol pos_weight (Some l) !! i
                 = Some (pos_symbol pos, pos_weight pos, Some colour)
                 ∧ colour ∈ COLORS
                 ∧ COLORS !! (i mod 6)%nat = Some colour)
  ∧ pieChartData pos_symbol pos_weight None = [].
Proof.
  unfold pieChartData. split; [apply length_imap|]. split; [|done].
  intros i pos Hi. rewrite list_lookup_imap, Hi.
  change (length COLORS) with 6%nat.
  assert (i mod 6 < length COLORS)%nat as Hlt.
  { change (length COLORS) with 6%nat. apply Nat.mod_upper_bound. lia. }
  apply lookup_lt_is_Some_2 in Hlt as [colour Hcol].
  exists colour. cbn [fmap option_fmap option_map]. rewrite Hcol.
  split; [done|]. split; [|done]. by eapply list_elem_of_lookup_2.
Qed.

End PortfolioProperties.

Lemma filled_form_adds_upper_cased_position_witness :
  let p := PortfolioPage.mkPage
             (PortfolioPage.mkPortfolio "My Portfolio"
                [PortfolioPage.mkPosition "AAPL" 50 150] 10000)
             (PortfolioPage.mkPosition "" 0 0) true in
  let filled := PortfolioPage.changeAvgCost 280
                  (PortfolioPage.changeShares 25 (PortfolioPage.changeSymbol "msft" p)) in
  PortfolioPage.addPosition 0 (Z.ltb 0) filled
  = PortfolioPage.mkPage
      (PortfolioPage.mkPortfolio "My Portfolio"
         [PortfolioPage.mkPosition "AAPL" 50 150;
          PortfolioPage.mkPosition (JS.toUpperCase "msft") 25 280] 10000)
      (PortfolioPage.mkPosition "" 0 0) false
  ∧ let blank := PortfolioPage.changeAvgCost 280
                   (PortfolioPage.changeShares 25 (PortfolioPage.changeSymbol "" p)) in
    PortfolioPage.addPosition 0 (Z.ltb 0) blank = blank.
Proof.
  apply (filled_form_adds_upper_cased_position 0 (Z.ltb 0)
           (PortfolioPage.mkPage
              (PortfolioPage.mkPortfolio "My Portfolio"
                 [PortfolioPage.mkPosition "AAPL" 50 150] 10000)
              (PortfolioPage.mkPosition "" 0 0) true) "msft" 25 280);
    [discriminate | reflexivity | reflexivity].
Defined.
